(** * FPL points prediction: the sliding-window sequence builder

    A shallow embedding of the table-reshaping core of the pipeline:
    [create_sequences] (data_processing.py), the column check and the
    normalisation step of [process_data] (data_processing.py), the guard of
    [main] (main.py), [predict_next_gameweek] (model.py) and the per-file
    gameweek synthesis of [ingest_data] (data_ingestion.py).

    Numeric cells are integers ([Z]).  The only floating-point computation of
    the modelled code happens inside the scaler and inside the trained
    network; both are parameters of the functions that use them. *)

From Stdlib Require Import ZArith String List Bool Lia Arith.
From Stdlib Require Import Sorting.Sorted Sorting.Permutation.
Import ListNotations.

Local Open Scope string_scope.
Local Open Scope list_scope.

(** ** Tables *)

(** A row gives the cell under every column label; only the labels listed
    in [columns] of the enclosing frame are ever read. *)
Definition Row := string -> Z.

(** A pandas DataFrame, positionally: the column labels and the rows in
    their current order.  Row labels (the index) are not kept: every frame
    the modelled code looks at either carries the default 0..n-1 index or is
    only read positionally ([len], [.values], [.iloc]).  Cells are never
    missing (no NaN), and a label names one column. *)
Record DataFrame := mkDataFrame {
  columns : list string;
  rows : list Row
}.

(** [data_array[i:i+seq_length]] and friends: a window is a list of feature
    tuples. *)
Definition Tuple := list Z.
Definition Matrix := list Tuple.

(** ** Python exceptions and the interpreter state *)

Inductive exn :=
| KeyError (labels : list string)
| IndexError
| ValueError.

Inductive outcome (A : Type) :=
| Returns (a : A)
| Raises (e : exn).
Arguments Returns {A} a.
Arguments Raises {A} e.

(** The object store holds every DataFrame object alive; a reference is a
    position in it.  [appended] is a history variable, not Python state: it
    records, for every [sequences.append] executed, the player and the start
    index [i] of the loop iteration that executed it. *)
Definition ref := nat.

Record world := mkWorld {
  objects : list DataFrame;
  appended : list (Z * nat)
}.

Definition py (A : Type) := world -> outcome A * world.

Definition ret {A} (a : A) : py A := fun w => (Returns a, w).
Definition raise {A} (e : exn) : py A := fun w => (Raises e, w).
Definition bind {A B} (c : py A) (k : A -> py B) : py B :=
  fun w => match c w with
           | (Returns a, w') => k a w'
           | (Raises e, w') => (Raises e, w')
           end.

Notation "x <- c ;; k" := (bind c (fun x => k))
  (at level 100, c at next level, right associativity).
Notation "c ;;; k" := (bind c (fun _ => k))
  (at level 100, right associativity).

Definition empty_frame : DataFrame := mkDataFrame [] [].

(** Reading the object behind a reference. *)
Definition deref (w : world) (r : ref) : DataFrame := nth r (objects w) empty_frame.

Definition get (r : ref) : py DataFrame := fun w => (Returns (deref w r), w).

(** A pandas operation that returns a new frame allocates it. *)
Definition alloc (d : DataFrame) : py ref :=
  fun w => (Returns (length (objects w)),
            mkWorld (objects w ++ [d]) (appended w)).

Fixpoint list_set {A} (l : list A) (n : nat) (a : A) : list A :=
  match l, n with
  | [], _ => []
  | _ :: l', O => a :: l'
  | x :: l', S n' => x :: list_set l' n' a
  end.

(** In-place update of the object behind a reference. *)
Definition put (r : ref) (d : DataFrame) : py unit :=
  fun w => (Returns tt, mkWorld (list_set (objects w) r d) (appended w)).

(** The history variable is extended at each append. *)
Definition note_append (player : Z) (i : nat) : py unit :=
  fun w => (Returns tt, mkWorld (objects w) (appended w ++ [(player, i)])).

(** ** pandas and numpy primitives *)

(** ['c' in df.columns] *)
Definition has_column (d : DataFrame) (c : string) : bool :=
  existsb (String.eqb c) (columns d).

Definition missing_columns (d : DataFrame) (cs : list string) : list string :=
  filter (fun c => negb (has_column d c)) cs.

(** [df[c].values] *)
Definition column_values (r : ref) (c : string) : py (list Z) :=
  d <- get r ;;
  if has_column d c then ret (map (fun row => row c) (rows d))
  else raise (KeyError [c]).

(** [df[cs].values]: one tuple per row, in the order of [cs]. *)
Definition frame_values (r : ref) (cs : list string) : py Matrix :=
  d <- get r ;;
  match missing_columns d cs with
  | [] => ret (map (fun row => map row cs) (rows d))
  | m => raise (KeyError m)
  end.

(** [len(df)] *)
Definition len (r : ref) : py nat :=
  d <- get r ;; ret (length (rows d)).

(** Lexicographic comparison of two rows on the sort keys. *)
Fixpoint lex_le (by_ : list string) (r1 r2 : Row) : bool :=
  match by_ with
  | [] => true
  | c :: by' =>
      (r1 c <? r2 c)%Z || ((r1 c =? r2 c)%Z && lex_le by' r1 r2)
  end.

(** Stable insertion: [r] is placed before the first row that is not
    smaller, hence before the rows of equal key that followed it. *)
Fixpoint insert_row (by_ : list string) (r : Row) (l : list Row) : list Row :=
  match l with
  | [] => [r]
  | x :: l' => if lex_le by_ r x then r :: l else x :: insert_row by_ r l'
  end.

Fixpoint sort_rows (by_ : list string) (l : list Row) : list Row :=
  match l with
  | [] => []
  | r :: l' => insert_row by_ r (sort_rows by_ l')
  end.

(** [df.sort_values(by)]: a new frame, rows in ascending key order, ties in
    their original order. *)
Definition sort_values (r : ref) (by_ : list string) : py ref :=
  d <- get r ;;
  match missing_columns d by_ with
  | [] => alloc (mkDataFrame (columns d) (sort_rows by_ (rows d)))
  | m :: _ => raise (KeyError [m])
  end.

(** [Series.unique()]: the distinct values in order of first appearance. *)
Fixpoint unique_from (seen : list Z) (l : list Z) : list Z :=
  match l with
  | [] => []
  | x :: l' =>
      if existsb (Z.eqb x) seen then unique_from seen l'
      else x :: unique_from (x :: seen) l'
  end.

Definition unique (l : list Z) : list Z := unique_from [] l.

(** [df[df[c] == v]]: a new frame with the rows whose cell equals [v]. *)
Definition select_eq (r : ref) (c : string) (v : Z) : py ref :=
  d <- get r ;;
  if has_column d c
  then alloc (mkDataFrame (columns d) (filter (fun row => (row c =? v)%Z) (rows d)))
  else raise (KeyError [c]).

(** [df.reset_index(drop=True)]: a new frame with the same cells. *)
Definition reset_index_drop (r : ref) : py ref :=
  d <- get r ;; alloc d.

(** [a[i:j]] for non-negative bounds. *)
Definition slice {A} (a : list A) (i j : nat) : list A :=
  firstn (j - i) (skipn i a).

(** [a[i]] for a non-negative index. *)
Definition item (a : list Z) (i : nat) : py Z :=
  match nth_error a i with
  | Some v => ret v
  | None => raise IndexError
  end.

(** ** data_processing.py: create_sequences *)

(** The two local lists of [create_sequences]. *)
Record acc := mkAcc {
  sequences : list Matrix;
  targets : list Z
}.

(** [for i in range(len(player_data) - seq_length): ...] *)
Fixpoint window_loop (player : Z) (data_array : Matrix) (target_array : list Z)
    (seq_length : nat) (range : list nat) (a : acc) : py acc :=
  match range with
  | [] => ret a
  | i :: range' =>
      let sequences' := sequences a ++ [slice data_array i (i + seq_length)] in
      note_append player i ;;;
      t <- item target_array (i + seq_length) ;;
      window_loop player data_array target_array seq_length range'
        (mkAcc sequences' (targets a ++ [t]))
  end.

(** [for player in df['player_id'].unique(): ...] *)
Fixpoint player_loop (df : ref) (seq_length : nat) (feature_cols : list string)
    (target_col : string) (players : list Z) (a : acc) : py acc :=
  match players with
  | [] => ret a
  | player :: players' =>
      selected <- select_eq df "player_id" player ;;
      player_data <- reset_index_drop selected ;;
      n <- len player_data ;;
      if (n <=? seq_length)%nat
      then player_loop df seq_length feature_cols target_col players' a
      else
        data_array <- frame_values player_data feature_cols ;;
        target_array <- column_values player_data target_col ;;
        a' <- window_loop player data_array target_array seq_length
                (seq 0 (n - seq_length)) a ;;
        player_loop df seq_length feature_cols target_col players' a'
  end.

(** [create_sequences(df, seq_length, feature_cols, target_col)].  The
    argument is [None] or a reference; the value returned is the pair
    [(None, None)] or the pair of arrays.  [np.array] of a list of windows
    is that list.  The [print] is not modelled.  [seq_length] ranges over
    the natural numbers: a negative length, for which the slices and the
    index of the loop body wrap around, is outside the model. *)
Definition create_sequences (df : option ref) (seq_length : nat)
    (feature_cols : list string) (target_col : string)
  : py (option (list Matrix) * option (list Z)) :=
  match df with
  | None => ret (None, None)
  | Some df =>
      d <- get df ;;
      if negb (has_column d "gameweek") then ret (None, None)
      else
        df <- sort_values df ["player_id"; "gameweek"] ;;
        ids <- column_values df "player_id" ;;
        a <- player_loop df seq_length feature_cols target_col (unique ids)
               (mkAcc [] []) ;;
        ret (Some (sequences a), Some (targets a))
  end.

(** ** data_processing.py: the player table in process_data *)

(** [row[c] = v] on one row. *)
Definition set_cell (row : Row) (c : string) (v : Z) : Row :=
  fun c' => if String.eqb c' c then v else row c'.

(** The cells of one row after [df[cs] = m], given the row's tuple of [m]:
    the labels are assigned left to right. *)
Definition set_cells (cs : list string) (t : Tuple) (row : Row) : Row :=
  fold_left (fun acc cv => set_cell acc (fst cv) (snd cv)) (combine cs t) row.

(** [m.shape == (n, k)] *)
Definition has_shape (m : Matrix) (n k : nat) : bool :=
  (length m =? n)%nat && forallb (fun t => (length t =? k)%nat) m.

(** [df[cs] = m], in place: a column that is absent is added, and an array
    of another shape than the selected block is refused. *)
Definition assign_columns (r : ref) (cs : list string) (m : Matrix) : py unit :=
  d <- get r ;;
  if has_shape m (length (rows d)) (length cs)
  then put r (mkDataFrame (columns d ++ missing_columns d cs)
                (map (fun rt => set_cells cs (snd rt) (fst rt)) (combine (rows d) m)))
  else raise ValueError.

(** [df[c] = values], in place. *)
Definition assign_column (r : ref) (c : string) (values : list Z) : py unit :=
  assign_columns r [c] (map (fun v => [v]) values).

(** [df[c] = v] for a scalar [v], in place. *)
Definition assign_scalar (r : ref) (c : string) (v : Z) : py unit :=
  d <- get r ;;
  assign_column r c (map (fun _ => v) (rows d)).

(** [df.rename(columns={old: new})]: a new frame; a label that is absent is
    ignored.  Every call in the modelled code is made when [new] is not a
    label of the frame. *)
Definition rename_column (r : ref) (old new : string) : py ref :=
  d <- get r ;;
  if has_column d old
  then alloc (mkDataFrame
                (map (fun c => if String.eqb c old then new else c) (columns d))
                (map (fun row => set_cell row new (row old)) (rows d)))
  else alloc d.

(** The result of applying a library function that may raise. *)
Definition lift {A} (o : outcome A) : py A := fun w => (o, w).

Definition required_cols : list string :=
  ["player_id"; "gameweek"; "minutes"; "goals"; "assists"; "points"].

(** The entries of the dictionary returned by [process_data] that depend on
    the player table. *)
Record pdata := mkPdata {
  data_player_gw_df : option ref;
  data_X : option (list Matrix);
  data_y : option (list Z)
}.

(** [if old in df.columns and new not in df.columns: df = df.rename(...)] *)
Definition rename_if_needed (df : ref) (old new : string) : py ref :=
  d <- get df ;;
  if has_column d old && negb (has_column d new)
  then rename_column df old new
  else ret df.

(** [process_data] from the aggregated player table on (lines 72 to 126);
    [fit_transform] is [StandardScaler().fit_transform].  The reading of the
    CSV files, the fixture statistics and the prints are not modelled. *)
Definition process_data (fit_transform : Matrix -> outcome Matrix)
    (player_gw_df : option ref) : py pdata :=
  match player_gw_df with
  | None => ret (mkPdata None None None)
  | Some df =>
      df <- rename_if_needed df "total_points" "points" ;;
      df <- rename_if_needed df "mins" "minutes" ;;
      df <- rename_if_needed df "goals_scored" "goals" ;;
      d <- get df ;;
      if forallb (has_column d) required_cols
      then
        let feature_cols := ["minutes"; "goals"; "assists"] in
        block <- frame_values df feature_cols ;;
        scaled <- lift (fit_transform block) ;;
        assign_columns df feature_cols scaled ;;;
        xy <- create_sequences (Some df) 5 feature_cols "points" ;;
        ret (mkPdata (Some df) (fst xy) (snd xy))
      else ret (mkPdata (Some df) None None)
  end.

(** ** main.py: the guard after processing *)

Inductive main_step :=
| Exit_no_sequences
| Train (X : list Matrix) (y : list Z).

(** [if data["X"] is None or data["y"] is None or data["player_gw_df"] is
    None: ... return], and otherwise [train_model(X, y)]. *)
Definition main_after_processing (data : pdata) : main_step :=
  match data_X data, data_y data, data_player_gw_df data with
  | Some X, Some y, Some _ => Train X y
  | _, _, _ => Exit_no_sequences
  end.

(** ** model.py: predict_next_gameweek *)

(** [d[k] = v] on an insertion-ordered dictionary. *)
Fixpoint dict_set {V} (d : list (Z * V)) (k : Z) (v : V) : list (Z * V) :=
  match d with
  | [] => [(k, v)]
  | (k', v') :: d' =>
      if (k' =? k)%Z then (k, v) :: d' else (k', v') :: dict_set d' k v
  end.

(** [d.get(k)] *)
Fixpoint dict_get {V} (d : list (Z * V)) (k : Z) : option V :=
  match d with
  | [] => None
  | (k', v') :: d' => if (k' =? k)%Z then Some v' else dict_get d' k
  end.

(** [df.iloc[-n:]]: a new frame with the last [n] rows; [-0] is [0], so
    [n = 0] selects every row. *)
Definition iloc_last (r : ref) (n : nat) : py ref :=
  d <- get r ;;
  alloc (mkDataFrame (columns d)
           (match n with
            | O => rows d
            | S _ => skipn (length (rows d) - n) (rows d)
            end)).

(** [for player in sorted_df['player_id'].unique(): ...]; [model] maps the
    window [seq] to [model.predict(np.expand_dims(seq, axis=0))[0, 0]]. *)
Fixpoint predict_loop {P} (model : Matrix -> P) (sorted_df : ref)
    (seq_length : nat) (feature_cols : list string) (players : list Z)
    (predictions : list (Z * P)) : py (list (Z * P)) :=
  match players with
  | [] => ret predictions
  | player :: players' =>
      selected <- select_eq sorted_df "player_id" player ;;
      player_data <- reset_index_drop selected ;;
      n <- len player_data ;;
      if (seq_length <=? n)%nat
      then
        last_rows <- iloc_last player_data seq_length ;;
        seq <- frame_values last_rows feature_cols ;;
        predict_loop model sorted_df seq_length feature_cols players'
          (dict_set predictions player (model seq))
      else
        predict_loop model sorted_df seq_length feature_cols players' predictions
  end.

(** [predict_next_gameweek(model, player_gw_df, seq_length, feature_cols)] *)
Definition predict_next_gameweek {P} (model : Matrix -> P) (player_gw_df : ref)
    (seq_length : nat) (feature_cols : list string) : py (list (Z * P)) :=
  sorted_df <- sort_values player_gw_df ["player_id"; "gameweek"] ;;
  ids <- column_values sorted_df "player_id" ;;
  predict_loop model sorted_df seq_length feature_cols (unique ids) [].

(** ** data_ingestion.py: the player file before it is saved *)

(** [df.reset_index()] on a frame that carries the default index: a new
    frame whose first column holds the positions 0..n-1.  pandas names that
    column [index], or [level_0] when the frame already has a column
    [index], and refuses to insert a label that exists. *)
Definition reset_index (r : ref) : py ref :=
  d <- get r ;;
  let name := if has_column d "index" then "level_0" else "index" in
  if has_column d name then raise ValueError
  else alloc (mkDataFrame (name :: columns d)
                (map (fun kr => set_cell (snd kr) name (Z.of_nat (fst kr)))
                     (combine (seq 0 (length (rows d))) (rows d)))).

(** Lines 92 to 96 of [ingest_data]: [df] is the frame read from the
    player's file, [id] is [row['id']]; the result is the frame that is
    saved. *)
Definition tag_player_file (df : ref) (id : Z) : py ref :=
  assign_scalar df "player_id" id ;;;
  d <- get df ;;
  if negb (has_column d "gameweek")
  then
    df <- reset_index df ;;
    df <- rename_column df "index" "gameweek" ;;
    g <- column_values df "gameweek" ;;
    assign_column df "gameweek" (map (fun v => (v + 1)%Z) g) ;;;
    ret df
  else ret df.

(** ** Building tables for examples *)

(** The row whose cells under the labels [cs] are [cells] (0 elsewhere). *)
Fixpoint row_of (cs : list string) (cells : list Z) : Row :=
  match cs, cells with
  | c :: cs', v :: cells' =>
      fun c' => if String.eqb c' c then v else row_of cs' cells' c'
  | _, _ => fun _ => 0%Z
  end.

(** [pd.DataFrame(table, columns=cs)] *)
Definition frame_of (cs : list string) (table : list (list Z)) : DataFrame :=
  mkDataFrame cs (map (row_of cs) table).

(** A store holding one frame, at reference 0, and an empty history. *)
Definition world_of (d : DataFrame) : world := mkWorld [d] [].

(** ** What the builder computes, as functions of the table *)

Definition key_cols : list string := ["player_id"; "gameweek"].

(** The rows of the table in [(player_id, gameweek)] order. *)
Definition sorted_rows (d : DataFrame) : list Row := sort_rows key_cols (rows d).

(** The players in iteration order. *)
Definition players (d : DataFrame) : list Z :=
  unique (map (fun row => row "player_id") (sorted_rows d)).

(** A player's group: the player's rows, in sorted order. *)
Definition group (d : DataFrame) (player : Z) : list Row :=
  filter (fun row => (row "player_id" =? player)%Z) (sorted_rows d).

(** The number of rows of the table that belong to a player. *)
Definition row_count (d : DataFrame) (player : Z) : nat :=
  length (filter (fun row => (row "player_id" =? player)%Z) (rows d)).

Definition features (feature_cols : list string) (g : list Row) : Matrix :=
  map (fun row => map row feature_cols) g.

(** The window and the target appended by iteration [(player, i)]. *)
Definition window_at (d : DataFrame) (feature_cols : list string)
    (seq_length : nat) (e : Z * nat) : Matrix :=
  slice (features feature_cols (group d (fst e))) (snd e) (snd e + seq_length).

Definition target_at (d : DataFrame) (target_col : string)
    (seq_length : nat) (e : Z * nat) : Z :=
  nth (snd e + seq_length) (map (fun row => row target_col) (group d (fst e))) 0%Z.

(** The iterations that append, in execution order. *)
Definition schedule (d : DataFrame) (seq_length : nat) : list (Z * nat) :=
  flat_map (fun p => map (pair p) (seq 0 (length (group d p) - seq_length)))
           (players d).

(** Some player has more than [seq_length] rows. *)
Definition some_window (d : DataFrame) (seq_length : nat) : bool :=
  existsb (fun p => negb (length (group d p) <=? seq_length)%nat) (players d).

(** The outcome of [create_sequences] on a table. *)
Definition builder_outcome (d : DataFrame) (seq_length : nat)
    (feature_cols : list string) (target_col : string)
  : outcome (option (list Matrix) * option (list Z)) :=
  if negb (has_column d "gameweek") then Returns (None, None)
  else if negb (has_column d "player_id") then Raises (KeyError ["player_id"])
  else if negb (some_window d seq_length) then Returns (Some [], Some [])
  else match missing_columns d feature_cols with
       | m :: ms => Raises (KeyError (m :: ms))
       | [] =>
           if negb (has_column d target_col) then Raises (KeyError [target_col])
           else Returns
                  (Some (map (window_at d feature_cols seq_length) (schedule d seq_length)),
                   Some (map (target_at d target_col seq_length) (schedule d seq_length)))
       end.

(** The part of the history written between two states. *)
Definition history_since (w w' : world) : list (Z * nat) :=
  skipn (length (appended w)) (appended w').

(** The store only grew: every object of [w] is still there, unchanged. *)
Definition extends (w w' : world) : Prop :=
  exists news, objects w' = objects w ++ news.

(** The table has the columns the builder reads. *)
Definition builder_ready (d : DataFrame) (feature_cols : list string)
    (target_col : string) : bool :=
  has_column d "gameweek" && has_column d "player_id"
  && forallb (has_column d) feature_cols && has_column d target_col.

(** ** Specification-level definitions used by the proofs *)

(** The rows of a frame that belong to a player. *)
Definition rows_of_player (s : DataFrame) (p : Z) : list Row :=
  filter (fun row => (row "player_id" =? p)%Z) (rows s).

(** What one player adds to the two lists and to the history. *)
Definition player_windows (s : DataFrame) (feature_cols : list string)
    (seq_length : nat) (p : Z) : list Matrix :=
  map (fun i => slice (features feature_cols (rows_of_player s p)) i (i + seq_length))
      (seq 0 (length (rows_of_player s p) - seq_length)).

Definition player_targets (s : DataFrame) (target_col : string)
    (seq_length : nat) (p : Z) : list Z :=
  map (fun i => nth (i + seq_length)
                  (map (fun row => row target_col) (rows_of_player s p)) 0%Z)
      (seq 0 (length (rows_of_player s p) - seq_length)).

Definition player_schedule (s : DataFrame) (seq_length : nat) (p : Z)
  : list (Z * nat) :=
  map (pair p) (seq 0 (length (rows_of_player s p) - seq_length)).

(** The exception raised at the first player with enough rows when a column
    the loop reads is absent. *)
Definition missing_error (s : DataFrame) (feature_cols : list string)
    (target_col : string) : exn :=
  match missing_columns s feature_cols with
  | [] => KeyError [target_col]
  | m => KeyError m
  end.

(** The frame allocated by [sort_values] in [create_sequences]. *)
Definition sorted_frame (d : DataFrame) : DataFrame :=
  mkDataFrame (columns d) (sorted_rows d).

(** The order of [sort_values]: lexicographic on the sort keys. *)
Definition le_rows (by_ : list string) (a b : Row) : Prop :=
  lex_le by_ a b = true.

(** Two rows have the same sort key. *)
Definition same_key (by_ : list string) (a b : Row) : bool :=
  forallb (fun c => (a c =? b c)%Z) by_.

(** Order on history entries: by player, then by start index. *)
Definition entry_lt (e1 e2 : Z * nat) : Prop :=
  (fst e1 < fst e2)%Z \/ (fst e1 = fst e2 /\ snd e1 < snd e2).

(** The last [n] elements selected by [[-n:]]. *)
Definition last_rows {A} (n : nat) (l : list A) : list A :=
  match n with
  | O => l
  | S _ => skipn (length l - n) l
  end.

(** The dictionary after the loop over the players [ps]. *)
Definition predictions_of {P} (model : Matrix -> P) (d : DataFrame)
    (feature_cols : list string) (seq_length : nat) (ps : list Z)
    (predictions : list (Z * P)) : list (Z * P) :=
  fold_left (fun preds p =>
               if (seq_length <=? length (group d p))%nat
               then dict_set preds p
                      (model (features feature_cols
                                (last_rows seq_length (group d p))))
               else preds) ps predictions.

(** The table has the columns [predict_next_gameweek] reads. *)
Definition extractor_ready (d : DataFrame) (feature_cols : list string) : bool :=
  has_column d "player_id" && has_column d "gameweek"
  && forallb (has_column d) feature_cols.

(** The cells of row [k] of the file once tagged. *)
Definition tag_row (id : Z) (kr : nat * Row) : Row :=
  let r1 := set_cell (snd kr) "player_id" id in
  let r2 := set_cell r1 "index" (Z.of_nat (fst kr)) in
  let r3 := set_cell r2 "gameweek" (r2 "index") in
  set_cell r3 "gameweek" (r3 "gameweek" + 1)%Z.

(** The frame bound to [player_gw_df] after one conditional rename. *)
Definition renamed (d : DataFrame) (old new : string) : DataFrame :=
  if has_column d old && negb (has_column d new)
  then mkDataFrame
         (map (fun c => if String.eqb c old then new else c) (columns d))
         (map (fun row => set_cell row new (row old)) (rows d))
  else d.

(** The player table after the three conditional renames. *)
Definition after_renames (d : DataFrame) : DataFrame :=
  renamed (renamed (renamed d "total_points" "points") "mins" "minutes")
          "goals_scored" "goals".

Definition feature_columns : list string := ["minutes"; "goals"; "assists"].

(** The player table after [df[feature_cols] = scaled]. *)
Definition normalized (d : DataFrame) (scaled : Matrix) : DataFrame :=
  mkDataFrame (columns d ++ missing_columns d feature_columns)
    (map (fun rt => set_cells feature_columns (snd rt) (fst rt))
         (combine (rows d) scaled)).

(** Two rows with the same sort keys and the same target cell. *)
Definition same_keys_target (target_col : string) (a b : Row) : Prop :=
  a "player_id" = b "player_id" /\ a "gameweek" = b "gameweek"
  /\ a target_col = b target_col.

(** Player 7 with six gameweeks and player 3 with three, in arrival order. *)
Definition example_table : DataFrame :=
  frame_of required_cols
    [[7; 3;  0; 0; 0; 0]; [7; 1; 90; 1; 0; 6]; [3; 1; 10; 0; 0; 1];
     [7; 2; 45; 0; 0; 2]; [7; 6; 60; 0; 1; 7]; [7; 4; 90; 1; 1; 9];
     [3; 2; 20; 0; 0; 2]; [7; 5; 90; 0; 0; 5]; [3; 3; 30; 0; 0; 3]]%Z.

(** One player with three gameweeks. *)
Definition short_table : DataFrame :=
  frame_of required_cols
    [[7; 1; 90; 1; 0; 6]; [7; 2; 45; 0; 0; 2]; [7; 3; 0; 0; 0; 0]]%Z.

(** The same player without the [minutes] column. *)
Definition short_table_no_minutes : DataFrame :=
  frame_of ["player_id"; "gameweek"; "goals"; "assists"; "points"]
    [[7; 1; 1; 0; 6]; [7; 2; 0; 0; 2]; [7; 3; 0; 0; 0]]%Z.

(** Player 7 with six gameweeks, without the [minutes] column. *)
Definition long_table_no_minutes : DataFrame :=
  frame_of ["player_id"; "gameweek"; "goals"; "assists"; "points"]
    [[7; 1; 1; 0; 6]; [7; 2; 0; 0; 2]; [7; 3; 0; 0; 0];
     [7; 4; 1; 1; 9]; [7; 5; 0; 0; 5]; [7; 6; 0; 1; 7]]%Z.

(** A scaler that returns its input, for running [process_data]. *)
Definition identity_scaler (m : Matrix) : outcome Matrix := Returns m.

(** Arithmetic on lengths, whatever name the element type goes by. *)
Ltac len_lia := unfold Row, Tuple, Matrix in *; lia.

(** ** The object store *)

Lemma extends_refl w : extends w w.
Proof. exists []. now rewrite app_nil_r. Qed.

Lemma extends_trans w1 w2 w3 : extends w1 w2 -> extends w2 w3 -> extends w1 w3.
Proof.
  intros [n1 H1] [n2 H2]. exists (n1 ++ n2).
  now rewrite H2, H1, app_assoc.
Qed.

Lemma extends_push l d h h' : extends (mkWorld l h) (mkWorld (l ++ [d]) h').
Proof. now exists [d]. Qed.

Lemma extends_length w w' :
  extends w w' -> length (objects w) <= length (objects w').
Proof. intros [n H]. rewrite H, length_app. lia. Qed.

Lemma deref_extends w w' r :
  extends w w' -> r < length (objects w) -> deref w' r = deref w r.
Proof.
  intros [n H] Hr. unfold deref. rewrite H. now apply app_nth1.
Qed.

Lemma deref_fresh l d h : deref (mkWorld (l ++ [d]) h) (length l) = d.
Proof.
  unfold deref; simpl. rewrite app_nth2 by lia. now rewrite Nat.sub_diag.
Qed.

Lemma history_since_app w w' h :
  appended w' = appended w ++ h -> history_since w w' = h.
Proof.
  intros H. unfold history_since. rewrite H.
  rewrite skipn_app, skipn_all, Nat.sub_diag. reflexivity.
Qed.

(** ** Running the loops of create_sequences *)

Lemma item_run a i w :
  i < length a -> item a i w = (Returns (nth i a 0%Z), w).
Proof.
  intros Hi. unfold item.
  destruct (nth_error a i) as [v|] eqn:E.
  - now rewrite (nth_error_nth _ _ 0%Z E).
  - apply nth_error_None in E. lia.
Qed.

Lemma window_loop_run player data_array target_array seq_length range :
  (forall i, In i range -> i + seq_length < length target_array) ->
  forall a w,
    window_loop player data_array target_array seq_length range a w =
    (Returns (mkAcc
                (sequences a ++
                 map (fun i => slice data_array i (i + seq_length)) range)
                (targets a ++
                 map (fun i => nth (i + seq_length) target_array 0%Z) range)),
     mkWorld (objects w) (appended w ++ map (pair player) range)).
Proof.
  induction range as [|i range IH]; intros Hin a w.
  - simpl. unfold ret. rewrite !app_nil_r. now destruct a, w.
  - simpl. unfold bind at 1. unfold note_append.
    unfold bind at 1. rewrite item_run by (apply Hin; now left).
    rewrite IH by (intros j Hj; apply Hin; now right).
    simpl. now rewrite <- !app_assoc.
Qed.

Lemma bind_returns {A B} (c : py A) (k : A -> py B) w a w' :
  c w = (Returns a, w') -> bind c k w = k a w'.
Proof. intros H. unfold bind. now rewrite H. Qed.

Lemma bind_raises {A B} (c : py A) (k : A -> py B) w e w' :
  c w = (Raises e, w') -> bind c k w = (Raises e, w').
Proof. intros H. unfold bind. now rewrite H. Qed.

Lemma get_run r w : get r w = (Returns (deref w r), w).
Proof. reflexivity. Qed.

Lemma len_run r w : len r w = (Returns (length (rows (deref w r))), w).
Proof. reflexivity. Qed.

Lemma select_eq_run r c v w :
  has_column (deref w r) c = true ->
  select_eq r c v w =
  (Returns (length (objects w)),
   mkWorld (objects w ++
            [mkDataFrame (columns (deref w r))
               (filter (fun row => (row c =? v)%Z) (rows (deref w r)))])
           (appended w)).
Proof.
  intros H. unfold select_eq. rewrite (bind_returns _ _ _ _ _ (get_run r w)).
  now rewrite H.
Qed.

Lemma reset_index_drop_run r w :
  reset_index_drop r w =
  (Returns (length (objects w)),
   mkWorld (objects w ++ [deref w r]) (appended w)).
Proof. reflexivity. Qed.

Lemma frame_values_run r cs w :
  missing_columns (deref w r) cs = [] ->
  frame_values r cs w = (Returns (features cs (rows (deref w r))), w).
Proof.
  intros H. unfold frame_values. rewrite (bind_returns _ _ _ _ _ (get_run r w)).
  now rewrite H.
Qed.

Lemma frame_values_missing r cs w :
  missing_columns (deref w r) cs <> [] ->
  frame_values r cs w = (Raises (KeyError (missing_columns (deref w r) cs)), w).
Proof.
  intros H. unfold frame_values. rewrite (bind_returns _ _ _ _ _ (get_run r w)).
  destruct (missing_columns (deref w r) cs); [congruence | reflexivity].
Qed.

Lemma column_values_run r c w :
  has_column (deref w r) c = true ->
  column_values r c w = (Returns (map (fun row => row c) (rows (deref w r))), w).
Proof.
  intros H. unfold column_values.
  rewrite (bind_returns _ _ _ _ _ (get_run r w)). now rewrite H.
Qed.

Lemma column_values_missing r c w :
  has_column (deref w r) c = false ->
  column_values r c w = (Raises (KeyError [c]), w).
Proof.
  intros H. unfold column_values.
  rewrite (bind_returns _ _ _ _ _ (get_run r w)). now rewrite H.
Qed.

Lemma player_loop_cons df seq_length feature_cols target_col p ps a :
  player_loop df seq_length feature_cols target_col (p :: ps) a =
  (selected <- select_eq df "player_id" p ;;
   player_data <- reset_index_drop selected ;;
   n <- len player_data ;;
   if (n <=? seq_length)%nat
   then player_loop df seq_length feature_cols target_col ps a
   else
     data_array <- frame_values player_data feature_cols ;;
     target_array <- column_values player_data target_col ;;
     a' <- window_loop p data_array target_array seq_length
             (seq 0 (n - seq_length)) a ;;
     player_loop df seq_length feature_cols target_col ps a').
Proof. reflexivity. Qed.

(** One iteration of the loop over the players, up to the branch. *)
Lemma player_loop_step df seq_length feature_cols target_col p ps a w :
  has_column (deref w df) "player_id" = true ->
  let s := deref w df in
  let g := mkDataFrame (columns s) (rows_of_player s p) in
  let w2 := mkWorld ((objects w ++ [g]) ++ [g]) (appended w) in
  player_loop df seq_length feature_cols target_col (p :: ps) a w =
  if (length (rows_of_player s p) <=? seq_length)%nat
  then player_loop df seq_length feature_cols target_col ps a w2
  else match missing_columns s feature_cols with
       | [] =>
           if has_column s target_col
           then bind (window_loop p (features feature_cols (rows_of_player s p))
                        (map (fun row => row target_col) (rows_of_player s p))
                        seq_length
                        (seq 0 (length (rows_of_player s p) - seq_length)) a)
                  (fun a' => player_loop df seq_length feature_cols target_col ps a') w2
           else (Raises (KeyError [target_col]), w2)
       | m => (Raises (KeyError m), w2)
       end.
Proof.
  intros Hpid. cbv zeta. rewrite player_loop_cons.
  rewrite (bind_returns _ _ _ _ _ (select_eq_run _ _ _ _ Hpid)).
  rewrite (bind_returns _ _ _ _ _ (reset_index_drop_run _ _)).
  rewrite (bind_returns _ _ _ _ _ (len_run _ _)).
  cbn [objects appended]. rewrite !deref_fresh.
  set (g := mkDataFrame _ _).
  assert (Hd : forall h, deref (mkWorld ((objects w ++ [g]) ++ [g]) h)
                     (length (objects w ++ [g])) = g)
    by (intros h; apply deref_fresh).
  change (rows g) with (rows_of_player (deref w df) p).
  destruct (length (rows_of_player (deref w df) p) <=? seq_length)%nat;
    [reflexivity|].
  change (missing_columns (deref w df) feature_cols)
    with (missing_columns g feature_cols).
  change (has_column (deref w df) target_col) with (has_column g target_col).
  destruct (missing_columns g feature_cols) as [|m ms] eqn:Em.
  - rewrite (bind_returns _ _ _ _ _ (frame_values_run _ _ _
               ltac:(rewrite Hd; exact Em))).
    rewrite Hd.
    destruct (has_column g target_col) eqn:Et.
    + rewrite (bind_returns _ _ _ _ _ (column_values_run _ _ _
                 ltac:(rewrite Hd; exact Et))).
      rewrite Hd. reflexivity.
    + rewrite (bind_raises _ _ _ _ _ (column_values_missing _ _ _
                 ltac:(rewrite Hd; exact Et))).
      reflexivity.
  - erewrite bind_raises; [reflexivity|].
    rewrite frame_values_missing; rewrite Hd, Em; [reflexivity | discriminate].
Qed.

Lemma extends_two w g1 g2 h :
  extends w (mkWorld ((objects w ++ [g1]) ++ [g2]) h).
Proof. exists [g1; g2]. simpl. now rewrite <- app_assoc. Qed.

Lemma deref_two w g1 g2 h df :
  df < length (objects w) ->
  deref (mkWorld ((objects w ++ [g1]) ++ [g2]) h) df = deref w df.
Proof. intros H. apply deref_extends; [apply extends_two | exact H]. Qed.

Lemma length_two (l : list DataFrame) g1 g2 df :
  df < length l -> df < length ((l ++ [g1]) ++ [g2]).
Proof. intros H. rewrite !length_app. simpl. lia. Qed.

(** The loop over the players when every column it reads is there. *)
Lemma player_loop_run df seq_length feature_cols target_col s :
  has_column s "player_id" = true ->
  missing_columns s feature_cols = [] ->
  has_column s target_col = true ->
  forall ps a w,
    df < length (objects w) -> deref w df = s ->
    exists w',
      player_loop df seq_length feature_cols target_col ps a w =
      (Returns (mkAcc
                  (sequences a ++
                   flat_map (player_windows s feature_cols seq_length) ps)
                  (targets a ++
                   flat_map (player_targets s target_col seq_length) ps)),
       w')
      /\ extends w w'
      /\ appended w' = appended w ++ flat_map (player_schedule s seq_length) ps.
Proof.
  intros Hpid Hfc Htc. induction ps as [|p ps IH]; intros a w Hdf Hs.
  - exists w. simpl. unfold ret. rewrite !app_nil_r.
    split; [now destruct a | split; [apply extends_refl | reflexivity]].
  - rewrite player_loop_step by (rewrite Hs; exact Hpid).
    cbv zeta. rewrite Hs, Hfc, Htc.
    set (g := mkDataFrame (columns s) (rows_of_player s p)).
    set (w2 := mkWorld ((objects w ++ [g]) ++ [g]) (appended w)).
    assert (Hdf2 : df < length (objects w2)) by (apply length_two; exact Hdf).
    assert (Hs2 : deref w2 df = s)
      by (unfold w2; rewrite deref_two by exact Hdf; exact Hs).
    destruct (length (rows_of_player s p) <=? seq_length)%nat eqn:En.
    + apply Nat.leb_le in En.
      destruct (IH a w2 Hdf2 Hs2) as (w' & Hrun & Hext & Hh).
      exists w'. split; [|split].
      * rewrite Hrun. simpl flat_map.
        unfold player_windows at 2, player_targets at 2.
        replace (length (rows_of_player s p) - seq_length) with 0 by lia.
        reflexivity.
      * eapply extends_trans; [apply extends_two | exact Hext].
      * rewrite Hh. simpl flat_map. unfold player_schedule at 2.
        replace (length (rows_of_player s p) - seq_length) with 0 by lia.
        reflexivity.
    + apply Nat.leb_gt in En.
      unfold bind. rewrite window_loop_run.
      2:{ intros i Hi. apply in_seq in Hi. rewrite length_map. len_lia. }
      match goal with
      | |- context [player_loop _ _ _ _ ps ?a' ?w3] =>
          destruct (IH a' w3) as (w' & Hrun & Hext & Hh)
      end.
      { exact Hdf2. } { exact Hs2. }
      exists w'. split; [|split].
      * rewrite Hrun. simpl. now rewrite <- !app_assoc.
      * eapply extends_trans; [apply extends_two | ].
        destruct Hext as [news Hn]. exists news. exact Hn.
      * rewrite Hh. simpl. now rewrite <- app_assoc.
Qed.

(** The loop over the players when no player has enough rows: nothing is
    read from the feature and target columns. *)
Lemma player_loop_skip df seq_length feature_cols target_col s :
  has_column s "player_id" = true ->
  forall ps,
    (forall p, In p ps -> length (rows_of_player s p) <= seq_length) ->
    forall a w,
      df < length (objects w) -> deref w df = s ->
      exists w',
        player_loop df seq_length feature_cols target_col ps a w = (Returns a, w')
        /\ extends w w' /\ appended w' = appended w.
Proof.
  intros Hpid. induction ps as [|p ps IH]; intros Hshort a w Hdf Hs.
  - exists w. split; [reflexivity | split; [apply extends_refl | reflexivity]].
  - rewrite player_loop_step by (rewrite Hs; exact Hpid).
    cbv zeta. rewrite Hs.
    assert (En : (length (rows_of_player s p) <=? seq_length)%nat = true)
      by (apply Nat.leb_le, Hshort; now left).
    rewrite En.
    set (g := mkDataFrame (columns s) (rows_of_player s p)).
    destruct (IH (fun q Hq => Hshort q (or_intror Hq)) a
                (mkWorld ((objects w ++ [g]) ++ [g]) (appended w)))
      as (w' & Hrun & Hext & Hh).
    { apply length_two; exact Hdf. }
    { rewrite deref_two by exact Hdf; exact Hs. }
    exists w'. split; [exact Hrun | split; [|exact Hh]].
    eapply extends_trans; [apply extends_two | exact Hext].
Qed.

Lemma player_loop_raise df seq_length feature_cols target_col s :
  has_column s "player_id" = true ->
  missing_columns s feature_cols <> [] \/ has_column s target_col = false ->
  forall ps,
    (exists p, In p ps /\ seq_length < length (rows_of_player s p)) ->
    forall a w,
      df < length (objects w) -> deref w df = s ->
      exists w',
        player_loop df seq_length feature_cols target_col ps a w =
        (Raises (missing_error s feature_cols target_col), w')
        /\ extends w w' /\ appended w' = appended w.
Proof.
  intros Hpid Hmiss. induction ps as [|p ps IH]; intros Hlong a w Hdf Hs.
  - destruct Hlong as (p & [] & _).
  - rewrite player_loop_step by (rewrite Hs; exact Hpid).
    cbv zeta. rewrite Hs.
    set (g := mkDataFrame (columns s) (rows_of_player s p)).
    destruct (length (rows_of_player s p) <=? seq_length)%nat eqn:En.
    + apply Nat.leb_le in En.
      destruct (IH) with (a := a)
        (w := mkWorld ((objects w ++ [g]) ++ [g]) (appended w))
        as (w' & Hrun & Hext & Hh).
      { destruct Hlong as (q & [Hq|Hq] & Hlen).
        - subst q. len_lia.
        - now exists q. }
      { apply length_two; exact Hdf. }
      { rewrite deref_two by exact Hdf; exact Hs. }
      exists w'. split; [exact Hrun | split; [|exact Hh]].
      eapply extends_trans; [apply extends_two | exact Hext].
    + unfold missing_error.
      destruct (missing_columns s feature_cols) as [|m ms].
      * destruct Hmiss as [Hm|Hm]; [congruence|]. rewrite Hm.
        eexists. split; [reflexivity | split; [apply extends_two | reflexivity]].
      * eexists. split; [reflexivity | split; [apply extends_two | reflexivity]].
Qed.

(** ** The outcome of create_sequences *)

Lemma missing_columns_nil d cs :
  missing_columns d cs = [] <-> forallb (has_column d) cs = true.
Proof.
  unfold missing_columns. induction cs as [|c cs IH]; simpl.
  - tauto.
  - destruct (has_column d c); simpl; [exact IH | split; discriminate].
Qed.

Lemma windows_of_schedule d feature_cols seq_length ps :
  flat_map (player_windows (sorted_frame d) feature_cols seq_length) ps =
  map (window_at d feature_cols seq_length)
      (flat_map (player_schedule (sorted_frame d) seq_length) ps).
Proof.
  induction ps as [|p ps IH]; simpl; [reflexivity|].
  rewrite map_app, <- IH. f_equal.
  unfold player_schedule, player_windows. now rewrite map_map.
Qed.

Lemma targets_of_schedule d target_col seq_length ps :
  flat_map (player_targets (sorted_frame d) target_col seq_length) ps =
  map (target_at d target_col seq_length)
      (flat_map (player_schedule (sorted_frame d) seq_length) ps).
Proof.
  induction ps as [|p ps IH]; simpl; [reflexivity|].
  rewrite map_app, <- IH. f_equal.
  unfold player_schedule, player_targets. now rewrite map_map.
Qed.

Lemma some_window_false d seq_length :
  some_window d seq_length = false ->
  forall p, In p (players d) -> length (group d p) <= seq_length.
Proof.
  unfold some_window. intros H p Hp.
  destruct (length (group d p) <=? seq_length)%nat eqn:E.
  - now apply Nat.leb_le.
  - assert (existsb (fun p => negb (length (group d p) <=? seq_length)%nat)
              (players d) = true)
      by (apply existsb_exists; exists p; split; [exact Hp | now rewrite E]).
    congruence.
Qed.

Lemma some_window_true d seq_length :
  some_window d seq_length = true ->
  exists p, In p (players d) /\ seq_length < length (group d p).
Proof.
  unfold some_window. intros H. apply existsb_exists in H.
  destruct H as (p & Hp & E). exists p. split; [exact Hp|].
  apply negb_true_iff, Nat.leb_gt in E. exact E.
Qed.

Lemma schedule_nil d seq_length :
  some_window d seq_length = false -> schedule d seq_length = [].
Proof.
  intros H. unfold schedule.
  assert (Hall := some_window_false d seq_length H).
  induction (players d) as [|p ps IH]; simpl; [reflexivity|].
  rewrite IH by (intros q Hq; apply Hall; now right).
  replace (length (group d p) - seq_length) with 0; [reflexivity|].
  specialize (Hall p (or_introl eq_refl)). lia.
Qed.

(** [create_sequences] on a reference computes [builder_outcome] of the
    table behind it, allocates, and writes to the history exactly the
    schedule of the iterations that append. *)
Lemma create_sequences_run r seq_length feature_cols target_col w :
  exists w',
    create_sequences (Some r) seq_length feature_cols target_col w =
    (builder_outcome (deref w r) seq_length feature_cols target_col, w')
    /\ extends w w'
    /\ appended w' =
       appended w ++
       (if builder_ready (deref w r) feature_cols target_col
        then schedule (deref w r) seq_length else []).
Proof.
  set (d := deref w r).
  unfold create_sequences, builder_outcome, builder_ready.
  rewrite (bind_returns _ _ _ _ _ (get_run r w)). fold d.
  destruct (has_column d "gameweek") eqn:Hgw; cbn [negb].
  2:{ exists w. simpl. rewrite app_nil_r.
      split; [reflexivity | split; [apply extends_refl | reflexivity]]. }
  destruct (has_column d "player_id") eqn:Hpid; cbn [negb].
  2:{ exists w. simpl. rewrite app_nil_r.
      split; [|split; [apply extends_refl | reflexivity]].
      apply bind_raises. unfold sort_values.
      rewrite (bind_returns _ _ _ _ _ (get_run r w)). fold d.
      unfold missing_columns. simpl. now rewrite Hpid. }
  set (w1 := mkWorld (objects w ++ [sorted_frame d]) (appended w)).
  assert (Hsort : sort_values r ["player_id"; "gameweek"] w =
                  (Returns (length (objects w)), w1)).
  { unfold sort_values. rewrite (bind_returns _ _ _ _ _ (get_run r w)). fold d.
    unfold missing_columns. simpl. rewrite Hpid, Hgw. reflexivity. }
  rewrite (bind_returns _ _ _ _ _ Hsort).
  assert (Hs : deref w1 (length (objects w)) = sorted_frame d)
    by (unfold w1; apply deref_fresh).
  rewrite (bind_returns _ _ _ _ _
             (column_values_run _ _ _ ltac:(rewrite Hs; exact Hpid))).
  rewrite Hs. change (unique _) with (players d).
  assert (Hdf : length (objects w) < length (objects w1))
    by (unfold w1; simpl; rewrite length_app; simpl; lia).
  assert (Hext1 : extends w w1) by (destruct w; apply extends_push).
  destruct (some_window d seq_length) eqn:Hsw; cbn [negb].
  - destruct (missing_columns d feature_cols) as [|m ms] eqn:Hm.
    + destruct (has_column d target_col) eqn:Htc; cbn [negb].
      * destruct (player_loop_run (length (objects w)) seq_length feature_cols
                    target_col (sorted_frame d) Hpid Hm Htc (players d)
                    (mkAcc [] []) w1 Hdf Hs) as (w' & Hrun & Hext & Hh).
        exists w'. rewrite (bind_returns _ _ _ _ _ Hrun).
        split; [|split].
        -- unfold ret. simpl.
           now rewrite windows_of_schedule, targets_of_schedule.
        -- eapply extends_trans; eassumption.
        -- rewrite Hh. apply missing_columns_nil in Hm. rewrite Hm. reflexivity.
      * destruct (player_loop_raise (length (objects w)) seq_length feature_cols
                    target_col (sorted_frame d) Hpid (or_intror Htc) (players d)
                    (some_window_true d seq_length Hsw)
                    (mkAcc [] []) w1 Hdf Hs) as (w' & Hrun & Hext & Hh).
        exists w'. rewrite (bind_raises _ _ _ _ _ Hrun).
        split; [|split].
        -- unfold missing_error.
           change (missing_columns (sorted_frame d) feature_cols)
             with (missing_columns d feature_cols).
           now rewrite Hm.
        -- eapply extends_trans; eassumption.
        -- rewrite Hh. rewrite andb_false_r. simpl. now rewrite app_nil_r.
    + assert (Hne : missing_columns (sorted_frame d) feature_cols <> [])
        by (change (missing_columns (sorted_frame d) feature_cols)
              with (missing_columns d feature_cols); rewrite Hm; discriminate).
      destruct (player_loop_raise (length (objects w)) seq_length feature_cols
                  target_col (sorted_frame d) Hpid (or_introl Hne) (players d)
                  (some_window_true d seq_length Hsw)
                  (mkAcc [] []) w1 Hdf Hs) as (w' & Hrun & Hext & Hh).
      exists w'. rewrite (bind_raises _ _ _ _ _ Hrun).
      split; [|split].
      * unfold missing_error.
        change (missing_columns (sorted_frame d) feature_cols)
          with (missing_columns d feature_cols).
        now rewrite Hm.
      * eapply extends_trans; eassumption.
      * rewrite Hh.
        assert (Hf : forallb (has_column d) feature_cols = false).
        { destruct (forallb (has_column d) feature_cols) eqn:Ef; [|reflexivity].
          apply missing_columns_nil in Ef. congruence. }
        rewrite Hf. simpl. now rewrite app_nil_r.
  - destruct (player_loop_skip (length (objects w)) seq_length feature_cols
                target_col (sorted_frame d) Hpid (players d)
                (some_window_false d seq_length Hsw)
                (mkAcc [] []) w1 Hdf Hs) as (w' & Hrun & Hext & Hh).
    exists w'. rewrite (bind_returns _ _ _ _ _ Hrun).
    split; [reflexivity | split].
    + eapply extends_trans; eassumption.
    + rewrite Hh. rewrite (schedule_nil d seq_length Hsw).
      simpl. destruct (_ && _); now rewrite app_nil_r.
Qed.

(** ** Sorting *)

Section Sorting.
Variable by_ : list string.
Local Abbreviation le_rows := (le_rows by_).
Local Abbreviation same_key := (same_key by_).

Lemma lex_le_total a b : lex_le by_ a b = true \/ lex_le by_ b a = true.
Proof.
  induction by_ as [|c cs IH]; simpl; [now left|].
  destruct (Z.ltb_spec (a c) (b c)); [now left|].
  destruct (Z.ltb_spec (b c) (a c)); [now right|].
  assert (E : a c = b c) by lia. rewrite E, Z.eqb_refl. simpl. exact IH.
Qed.

Lemma lex_le_trans a b c :
  lex_le by_ a b = true -> lex_le by_ b c = true -> lex_le by_ a c = true.
Proof.
  induction by_ as [|k ks IH]; simpl; [reflexivity|].
  intros H1 H2.
  apply orb_true_iff in H1. apply orb_true_iff in H2. apply orb_true_iff.
  rewrite andb_true_iff in *. rewrite !Z.ltb_lt, !Z.eqb_eq in *.
  destruct H1 as [H1|[E1 H1]], H2 as [H2|[E2 H2]].
  - left; lia.
  - left; lia.
  - left; lia.
  - right. split; [lia | now apply IH].
Qed.

Lemma insert_row_perm r l : Permutation (insert_row by_ r l) (r :: l).
Proof.
  induction l as [|x l IH]; simpl; [reflexivity|].
  destruct (lex_le by_ r x); [reflexivity|].
  rewrite IH. apply perm_swap.
Qed.

Lemma sort_rows_perm l : Permutation (sort_rows by_ l) l.
Proof.
  induction l as [|r l IH]; simpl; [reflexivity|].
  rewrite insert_row_perm. now constructor.
Qed.

Lemma insert_row_sorted r l :
  StronglySorted le_rows l -> StronglySorted le_rows (insert_row by_ r l).
Proof.
  induction 1 as [|x l Hl IH Hx]; simpl.
  - repeat constructor.
  - destruct (lex_le by_ r x) eqn:E.
    + constructor; [now constructor|].
      constructor; [exact E|].
      eapply Forall_impl; [|exact Hx].
      intros y Hy. eapply lex_le_trans; eassumption.
    + constructor; [exact IH|].
      assert (Hxr : le_rows x r)
        by (destruct (lex_le_total r x) as [H|H]; [congruence | exact H]).
      eapply Permutation_Forall; [symmetry; apply insert_row_perm|].
      now constructor.
Qed.

Lemma sort_rows_sorted l : StronglySorted le_rows (sort_rows by_ l).
Proof.
  induction l as [|r l IH]; simpl; [constructor | now apply insert_row_sorted].
Qed.

(** A filter sees the inserted row and the other rows. *)
Lemma insert_row_filter_length (f : Row -> bool) r l :
  length (filter f (insert_row by_ r l)) = length (filter f (r :: l)).
Proof.
  induction l as [|x l IH]; simpl; [reflexivity|].
  destruct (lex_le by_ r x); [reflexivity|].
  simpl. simpl in IH.
  destruct (f x), (f r); simpl in *; lia.
Qed.

Lemma sort_rows_filter_length (f : Row -> bool) l :
  length (filter f (sort_rows by_ l)) = length (filter f l).
Proof.
  induction l as [|r l IH]; simpl; [reflexivity|].
  rewrite insert_row_filter_length. simpl.
  destruct (f r); simpl; now rewrite IH.
Qed.

Lemma same_key_le a b : same_key a b = true -> lex_le by_ a b = true.
Proof.
  unfold same_key. induction by_ as [|c cs IH]; simpl; [reflexivity|].
  intros H. apply andb_true_iff in H. destruct H as [E H].
  rewrite E, (IH H). simpl. apply orb_true_r.
Qed.

Lemma same_key_trans k a b :
  same_key k a = true -> same_key k b = true -> same_key a b = true.
Proof.
  unfold same_key. rewrite !forallb_forall. intros Ha Hb c Hc.
  specialize (Ha c Hc). specialize (Hb c Hc).
  rewrite Z.eqb_eq in *. congruence.
Qed.

(** The sort is stable: the rows of one key keep their order. *)
Lemma insert_row_stable k r l :
  filter (same_key k) (insert_row by_ r l) = filter (same_key k) (r :: l).
Proof.
  induction l as [|x l IH]; simpl; [reflexivity|].
  destruct (lex_le by_ r x) eqn:E; [reflexivity|].
  simpl. rewrite IH. simpl.
  destruct (same_key k x) eqn:Ex, (same_key k r) eqn:Er; try reflexivity.
  assert (lex_le by_ r x = true)
    by (apply same_key_le; eapply same_key_trans; eassumption).
  congruence.
Qed.

Lemma sort_rows_stable k l :
  filter (same_key k) (sort_rows by_ l) = filter (same_key k) l.
Proof.
  induction l as [|r l IH]; simpl; [reflexivity|].
  rewrite insert_row_stable. simpl. now rewrite IH.
Qed.
End Sorting.

(** ** Groups and players *)

Lemma key_le_spec a b :
  lex_le key_cols a b = true <->
  (a "player_id" < b "player_id"
   \/ (a "player_id" = b "player_id" /\ a "gameweek" <= b "gameweek"))%Z.
Proof.
  unfold key_cols. simpl.
  rewrite orb_true_iff, andb_true_iff, orb_true_iff, andb_true_iff.
  rewrite !Z.ltb_lt, !Z.eqb_eq. split.
  - intros [H|[E [H|[E' _]]]]; lia.
  - intros [H|[E H]]; [now left | right; split; [exact E|]].
    destruct (Z.eq_dec (a "gameweek") (b "gameweek")); [right | left]; auto.
    lia.
Qed.

Lemma StronglySorted_filter {A} (R : A -> A -> Prop) (f : A -> bool) l :
  StronglySorted R l -> StronglySorted R (filter f l).
Proof.
  induction 1 as [|x l Hl IH Hx]; simpl; [constructor|].
  destruct (f x); [|exact IH].
  constructor; [exact IH|].
  apply Forall_forall. intros y Hy. apply filter_In in Hy.
  rewrite Forall_forall in Hx. now apply Hx.
Qed.

Lemma StronglySorted_weaken {A} (R R' : A -> A -> Prop) (P : A -> Prop) l :
  (forall a b, P a -> P b -> R a b -> R' a b) ->
  Forall P l -> StronglySorted R l -> StronglySorted R' l.
Proof.
  intros Himp HP HS. induction HS as [|x l Hl IH Hx]; [constructor|].
  inversion HP as [|? ? Px Pl]; subst.
  constructor; [now apply IH|].
  rewrite Forall_forall in *. intros y Hy. apply Himp; auto.
Qed.

Lemma StronglySorted_map {A B} (R : B -> B -> Prop) (f : A -> B) l :
  StronglySorted (fun a b => R (f a) (f b)) l -> StronglySorted R (map f l).
Proof.
  induction 1 as [|x l Hl IH Hx]; simpl; constructor; [exact IH|].
  rewrite Forall_forall in *. intros y Hy.
  apply in_map_iff in Hy. destruct Hy as (a & <- & Ha). now apply Hx.
Qed.

(** A player's group has as many rows as the table has for the player. *)
Lemma group_length d p : length (group d p) = row_count d p.
Proof. apply sort_rows_filter_length. Qed.

Lemma group_player d p row : In row (group d p) -> row "player_id" = p.
Proof.
  unfold group. intros H. apply filter_In in H. now apply Z.eqb_eq.
Qed.

(** A player's group is in ascending gameweek order. *)
Lemma group_sorted d p :
  StronglySorted (fun a b => a "gameweek" <= b "gameweek")%Z (group d p).
Proof.
  apply StronglySorted_weaken
    with (R := le_rows key_cols) (P := fun row => row "player_id" = p).
  - intros a b Ha Hb H. apply key_le_spec in H. lia.
  - apply Forall_forall. intros row. apply group_player.
  - apply StronglySorted_filter, sort_rows_sorted.
Qed.

(** The rows of a player and gameweek keep the order they have in the
    table. *)
Lemma group_stable d p g :
  filter (fun row => (row "gameweek" =? g)%Z) (group d p) =
  filter (fun row => (row "gameweek" =? g)%Z)
         (filter (fun row => (row "player_id" =? p)%Z) (rows d)).
Proof.
  set (k := fun c : string => if String.eqb c "player_id" then p else g).
  assert (E : forall l,
             filter (fun row => (row "gameweek" =? g)%Z)
                    (filter (fun row => (row "player_id" =? p)%Z) l)
             = filter (same_key key_cols k) l).
  { induction l as [|x l IH]; simpl; [reflexivity|].
    unfold same_key at 1. simpl. unfold k at 1 2. simpl.
    rewrite (Z.eqb_sym p), (Z.eqb_sym g), andb_true_r.
    destruct (x "player_id" =? p)%Z; simpl.
    - destruct (x "gameweek" =? g)%Z; simpl; now rewrite IH.
    - exact IH. }
  unfold group, sorted_rows. rewrite !E. apply sort_rows_stable.
Qed.

Lemma unique_from_In seen l x :
  In x (unique_from seen l) <-> In x l /\ ~ In x seen.
Proof.
  revert seen. induction l as [|y l IH]; intros seen; simpl; [tauto|].
  destruct (existsb (Z.eqb y) seen) eqn:E.
  - rewrite IH. apply existsb_exists in E. destruct E as (z & Hz & Ez).
    apply Z.eqb_eq in Ez. subst z.
    split; [tauto|]. intros [[->|H] Hn]; [contradiction | tauto].
  - assert (Hy : ~ In y seen).
    { intros H. assert (existsb (Z.eqb y) seen = true); [|congruence].
      apply existsb_exists. exists y. split; [exact H | apply Z.eqb_refl]. }
    simpl. rewrite IH. simpl. split.
    + intros [->|[H Hn]]; [tauto|]. split; [tauto|]. tauto.
    + intros [[->|H] Hn]; [now left|].
      destruct (Z.eq_dec y x); [now left | right]. tauto.
Qed.

Lemma unique_from_sorted seen l :
  StronglySorted Z.le l -> StronglySorted Z.lt (unique_from seen l).
Proof.
  intros HS. revert seen.
  induction HS as [|y l Hl IH Hy]; intros seen; simpl; [constructor|].
  destruct (existsb (Z.eqb y) seen); [apply IH|].
  constructor; [apply IH|].
  apply Forall_forall. intros x Hx. apply unique_from_In in Hx.
  destruct Hx as [Hx Hn]. rewrite Forall_forall in Hy.
  specialize (Hy x Hx). simpl in Hn.
  assert (y <> x) by tauto. lia.
Qed.

Lemma StronglySorted_lt_NoDup l : StronglySorted Z.lt l -> NoDup l.
Proof.
  induction 1 as [|x l Hl IH Hx]; constructor; [|exact IH].
  intros Hin. rewrite Forall_forall in Hx. specialize (Hx x Hin). lia.
Qed.

(** The players are visited in ascending order of identifier. *)
Lemma players_sorted d : StronglySorted Z.lt (players d).
Proof.
  apply unique_from_sorted. apply StronglySorted_map.
  apply StronglySorted_weaken
    with (R := le_rows key_cols) (P := fun _ => True).
  - intros a b _ _ H. apply key_le_spec in H. lia.
  - apply Forall_forall. trivial.
  - apply sort_rows_sorted.
Qed.

Lemma players_NoDup d : NoDup (players d).
Proof. apply StronglySorted_lt_NoDup, players_sorted. Qed.

(** The players are the identifiers that occur in the table. *)
Lemma players_spec d p :
  In p (players d) <-> exists row, In row (rows d) /\ row "player_id" = p.
Proof.
  unfold players, unique. rewrite unique_from_In, in_map_iff. simpl.
  split.
  - intros [(row & E & Hrow) _]. exists row. split; [|exact E].
    eapply Permutation_in; [apply sort_rows_perm | exact Hrow].
  - intros (row & Hrow & E). split; [|tauto]. exists row. split; [exact E|].
    eapply Permutation_in; [symmetry; apply sort_rows_perm | exact Hrow].
Qed.

Lemma players_row_count d p : In p (players d) <-> 0 < row_count d p.
Proof.
  rewrite players_spec. unfold row_count. split.
  - intros (row & Hrow & E).
    assert (In row (filter (fun row => (row "player_id" =? p)%Z) (rows d)))
      by (apply filter_In; split; [exact Hrow | now apply Z.eqb_eq]).
    destruct (filter (fun row => (row "player_id" =? p)%Z) (rows d));
      simpl; [contradiction | lia].
  - intros H.
    destruct (filter (fun row => (row "player_id" =? p)%Z) (rows d))
      as [|row l] eqn:E; simpl in H; [lia|].
    assert (Hin : In row (filter (fun row => (row "player_id" =? p)%Z) (rows d)))
      by (rewrite E; now left).
    apply filter_In in Hin. exists row.
    split; [tauto | now apply Z.eqb_eq].
Qed.

(** ** The schedule of appends *)

Lemma schedule_In d seq_length p i :
  In (p, i) (schedule d seq_length) <->
  In p (players d) /\ i < length (group d p) - seq_length.
Proof.
  unfold schedule. rewrite in_flat_map. split.
  - intros (q & Hq & Hin). apply in_map_iff in Hin.
    destruct Hin as (j & E & Hj). inversion E; subst.
    apply in_seq in Hj. split; [exact Hq | lia].
  - intros [Hp Hi]. exists p. split; [exact Hp|].
    apply in_map_iff. exists i. split; [reflexivity | apply in_seq; lia].
Qed.

Lemma block_count (k : Z -> nat) p ps :
  NoDup ps ->
  length (filter (fun e : Z * nat => (fst e =? p)%Z)
            (flat_map (fun q => map (pair q) (seq 0 (k q))) ps))
  = if in_dec Z.eq_dec p ps then k p else 0.
Proof.
  induction 1 as [|q ps Hq Hnd IH]; [reflexivity|].
  simpl flat_map. rewrite filter_app, length_app, IH.
  assert (Hblock : forall l : list nat,
             length (filter (fun e : Z * nat => (fst e =? p)%Z) (map (pair q) l))
             = if (q =? p)%Z then length l else 0).
  { induction l as [|j l IHl]; simpl; [now destruct (q =? p)%Z|].
    destruct (q =? p)%Z; simpl; [now rewrite IHl | exact IHl]. }
  rewrite Hblock, length_seq.
  destruct (Z.eqb_spec q p) as [->|Hne].
  - destruct (in_dec Z.eq_dec p ps) as [Hin|_]; [contradiction|].
    destruct (in_dec Z.eq_dec p (p :: ps)) as [_|Hn]; [lia|].
    exfalso. apply Hn. now left.
  - destruct (in_dec Z.eq_dec p ps) as [Hin|Hn];
      destruct (in_dec Z.eq_dec p (q :: ps)) as [Hin'|Hn']; simpl; try lia.
    + exfalso. apply Hn'. now right.
    + destruct Hin' as [E|Hin']; [congruence | contradiction].
Qed.

(** A player has [row_count - seq_length] entries in the schedule. *)
Lemma schedule_count d seq_length p :
  length (filter (fun e : Z * nat => (fst e =? p)%Z) (schedule d seq_length))
  = row_count d p - seq_length.
Proof.
  unfold schedule.
  rewrite (block_count (fun q => length (group d q) - seq_length) p (players d)
             (players_NoDup d)).
  rewrite group_length.
  destruct (in_dec Z.eq_dec p (players d)) as [Hin|Hn]; [reflexivity|].
  rewrite players_row_count in Hn. lia.
Qed.

Lemma StronglySorted_app {A} (R : A -> A -> Prop) l1 l2 :
  StronglySorted R l1 -> StronglySorted R l2 ->
  (forall x y, In x l1 -> In y l2 -> R x y) ->
  StronglySorted R (l1 ++ l2).
Proof.
  induction 1 as [|x l1 Hl IH Hx]; intros H2 Hc; simpl; [exact H2|].
  constructor.
  - apply IH; [exact H2 | intros a b Ha Hb; apply Hc; [now right | exact Hb]].
  - apply Forall_app. split; [exact Hx|].
    apply Forall_forall. intros y Hy. apply Hc; [now left | exact Hy].
Qed.

Lemma StronglySorted_nth {A} (R : A -> A -> Prop) l :
  StronglySorted R l ->
  forall a b x y, a < b -> nth_error l a = Some x -> nth_error l b = Some y ->
                  R x y.
Proof.
  induction 1 as [|z l Hl IH Hz]; intros a b x y Hab Ha Hb.
  - destruct a; discriminate.
  - destruct b as [|b]; [lia|]. simpl in Hb.
    destruct a as [|a]; simpl in Ha.
    + inversion Ha; subst. rewrite Forall_forall in Hz.
      apply Hz. eapply nth_error_In; eassumption.
    + eapply IH; [|eassumption|eassumption]. lia.
Qed.

(** The appends are made in increasing (player, start index) order. *)
Lemma schedule_sorted d seq_length : StronglySorted entry_lt (schedule d seq_length).
Proof.
  unfold schedule.
  assert (H := players_sorted d).
  induction H as [|p ps Hps IH Hp]; simpl; [constructor|].
  apply StronglySorted_app.
  - generalize (length (group d p) - seq_length). intros k.
    apply StronglySorted_map.
    assert (Hseq : forall a, StronglySorted lt (seq a k)).
    { induction k as [|k IHk]; intros a; simpl; constructor; [apply IHk|].
      apply Forall_forall. intros j Hj. apply in_seq in Hj. lia. }
    eapply StronglySorted_weaken with (P := fun _ => True);
      [| apply Forall_forall; trivial | apply (Hseq 0)].
    intros a b _ _ Hab. right. simpl. split; [reflexivity | exact Hab].
  - exact IH.
  - intros x y Hx Hy. apply in_map_iff in Hx. destruct Hx as (i & <- & _).
    apply in_flat_map in Hy. destruct Hy as (q & Hq & Hy).
    apply in_map_iff in Hy. destruct Hy as (j & <- & _).
    left. simpl. rewrite Forall_forall in Hp. now apply Hp.
Qed.

(** When the columns are there the builder returns the windows and targets
    of the schedule, and the history of the call is the schedule. *)
Lemma builder_outcome_ready d seq_length feature_cols target_col :
  builder_ready d feature_cols target_col = true ->
  builder_outcome d seq_length feature_cols target_col =
  Returns (Some (map (window_at d feature_cols seq_length) (schedule d seq_length)),
           Some (map (target_at d target_col seq_length) (schedule d seq_length))).
Proof.
  unfold builder_ready, builder_outcome. intros H.
  apply andb_true_iff in H. destruct H as [H Htc].
  apply andb_true_iff in H. destruct H as [H Hfc].
  apply andb_true_iff in H. destruct H as [Hgw Hpid].
  rewrite Hgw, Hpid, Htc. cbn [negb].
  apply missing_columns_nil in Hfc. rewrite Hfc.
  destruct (some_window d seq_length) eqn:Hsw; cbn [negb]; [reflexivity|].
  now rewrite (schedule_nil d seq_length Hsw).
Qed.

Lemma create_sequences_ready r seq_length feature_cols target_col w :
  builder_ready (deref w r) feature_cols target_col = true ->
  let d := deref w r in
  let run := create_sequences (Some r) seq_length feature_cols target_col w in
  fst run =
    Returns (Some (map (window_at d feature_cols seq_length) (schedule d seq_length)),
             Some (map (target_at d target_col seq_length) (schedule d seq_length)))
  /\ history_since w (snd run) = schedule d seq_length
  /\ extends w (snd run).
Proof.
  intros Hready d run.
  destruct (create_sequences_run r seq_length feature_cols target_col w)
    as (w' & Hrun & Hext & Hh).
  subst run d. rewrite Hrun. simpl. rewrite Hready in Hh.
  split; [now apply builder_outcome_ready | split; [|exact Hext]].
  now apply history_since_app.
Qed.

(** ** The claims on create_sequences *)

(** C1.  Whatever the table and the window length, a player with [n] rows
    accounts for exactly [max(0, n - seq_length)] of the appends, each append
    producing one window and one target of the output; a player with
    [n <= seq_length] accounts for none, and the call returns normally. *)
Theorem windows_per_player w r seq_length feature_cols target_col p :
  builder_ready (deref w r) feature_cols target_col = true ->
  let d := deref w r in
  let run := create_sequences (Some r) seq_length feature_cols target_col w in
  let h := history_since w (snd run) in
  fst run = Returns (Some (map (window_at d feature_cols seq_length) h),
                     Some (map (target_at d target_col seq_length) h))
  /\ Z.of_nat (length (filter (fun e : Z * nat => (fst e =? p)%Z) h))
     = Z.max 0 (Z.of_nat (row_count d p) - Z.of_nat seq_length)
  /\ (row_count d p <= seq_length ->
      filter (fun e : Z * nat => (fst e =? p)%Z) h = []).
Proof.
  intros Hready d run h.
  destruct (create_sequences_ready r seq_length feature_cols target_col w Hready)
    as (Hout & Hh & _).
  fold d in Hout, Hh. fold run in Hout, Hh. fold h in Hh.
  rewrite Hh. split; [exact Hout|].
  assert (Hc := schedule_count d seq_length p).
  split.
  - rewrite Hc. lia.
  - intros Hn.
    destruct (filter (fun e : Z * nat => (fst e =? p)%Z) (schedule d seq_length));
      [reflexivity | simpl in Hc; lia].
Qed.

(** C2.  The append made for player [p] at start index [i] puts at one
    position of the two output arrays a window and a target: the window is
    made of exactly [seq_length] tuples, tuple [j] holding the feature cells
    of the row at position [i + j] of the player's group, and the target is
    the target cell of the row at position [i + seq_length] of that group,
    the row right after the last row of the window.  The group holds the
    player's rows in ascending gameweek order. *)
Theorem target_follows_window w r seq_length feature_cols target_col k p i :
  builder_ready (deref w r) feature_cols target_col = true ->
  let d := deref w r in
  let run := create_sequences (Some r) seq_length feature_cols target_col w in
  nth_error (history_since w (snd run)) k = Some (p, i) ->
  StronglySorted (fun a b => a "gameweek" <= b "gameweek")%Z (group d p)
  /\ Forall (fun row : Row => row "player_id" = p) (group d p)
  /\ length (group d p) = row_count d p
  /\ exists X Y window next,
       fst run = Returns (Some X, Some Y)
       /\ nth_error X k = Some window
       /\ nth_error Y k = Some (next target_col)
       /\ nth_error (group d p) (i + seq_length) = Some next
       /\ length window = seq_length
       /\ (forall j, j < seq_length ->
           exists row, nth_error (group d p) (i + j) = Some row
                       /\ nth_error window j = Some (map row feature_cols))
       /\ window
          = map (fun row : Row => map row feature_cols)
                (firstn seq_length (skipn i (group d p))).
Proof.
  intros Hready d run Hk.
  destruct (create_sequences_ready r seq_length feature_cols target_col w Hready)
    as (Hout & Hh & _).
  fold d in Hout, Hh. fold run in Hout, Hh. rewrite Hh in Hk.
  split; [apply group_sorted|].
  split; [apply Forall_forall; intros row; apply group_player|].
  split; [apply group_length|].
  assert (Hin : In (p, i) (schedule d seq_length))
    by (eapply nth_error_In; exact Hk).
  apply schedule_In in Hin. destruct Hin as [_ Hi].
  destruct (nth_error (group d p) (i + seq_length)) as [next|] eqn:En.
  2:{ apply nth_error_None in En. len_lia. }
  assert (Hw : window_at d feature_cols seq_length (p, i)
               = map (fun row : Row => map row feature_cols)
                     (firstn seq_length (skipn i (group d p)))).
  { unfold window_at, features, slice. cbn [fst snd].
    replace (i + seq_length - i) with seq_length by lia.
    now rewrite <- firstn_map, <- skipn_map. }
  exists (map (window_at d feature_cols seq_length) (schedule d seq_length)),
         (map (target_at d target_col seq_length) (schedule d seq_length)),
         (map (fun row : Row => map row feature_cols)
              (firstn seq_length (skipn i (group d p)))),
         next.
  split; [exact Hout|].
  split; [now rewrite nth_error_map, Hk; cbn [option_map]; rewrite Hw|].
  split.
  { rewrite nth_error_map, Hk. cbn [option_map]. f_equal.
    unfold target_at. cbn [fst snd]. apply nth_error_nth.
    exact (map_nth_error (fun row : Row => row target_col) _ _ En). }
  split; [reflexivity|].
  split; [rewrite length_map, length_firstn, length_skipn; len_lia|].
  split; [|reflexivity].
  intros j Hj.
  destruct (nth_error (group d p) (i + j)) as [row|] eqn:Ej.
  2:{ apply nth_error_None in Ej. len_lia. }
  exists row. split; [reflexivity|].
  rewrite nth_error_map, nth_error_firstn.
  apply Nat.ltb_lt in Hj. rewrite Hj, nth_error_skipn, Ej. reflexivity.
Qed.

Lemma slice_length {A} (a : list A) i n :
  i + n <= length a -> length (slice a i (i + n)) = n.
Proof.
  intros H. unfold slice. rewrite length_firstn, length_skipn. lia.
Qed.

Lemma slice_In {A} (a : list A) i j x : In x (slice a i j) -> In x a.
Proof.
  unfold slice. intros H.
  rewrite <- (firstn_skipn i a). apply in_or_app. right.
  rewrite <- (firstn_skipn (j - i) (skipn i a)). apply in_or_app. now left.
Qed.

(** C5.  Every window of the output has exactly [seq_length] tuples, and
    every tuple has one cell per feature column. *)
Theorem window_shape w r seq_length feature_cols target_col X Y window :
  fst (create_sequences (Some r) seq_length feature_cols target_col w)
  = Returns (Some X, Some Y) ->
  In window X ->
  length window = seq_length
  /\ Forall (fun t : Tuple => length t = length feature_cols) window.
Proof.
  intros Hout Hin.
  destruct (create_sequences_run r seq_length feature_cols target_col w)
    as (w' & Hrun & _ & _).
  rewrite Hrun in Hout. simpl in Hout. unfold builder_outcome in Hout.
  set (d := deref w r) in *.
  destruct (has_column d "gameweek"); cbn [negb] in Hout; [|discriminate].
  destruct (has_column d "player_id"); cbn [negb] in Hout; [|discriminate].
  destruct (some_window d seq_length); cbn [negb] in Hout.
  2:{ inversion Hout; subst. contradiction. }
  destruct (missing_columns d feature_cols); [|discriminate].
  destruct (has_column d target_col); cbn [negb] in Hout; [|discriminate].
  inversion Hout; subst. clear Hout.
  apply in_map_iff in Hin. destruct Hin as ([p i] & <- & He).
  apply schedule_In in He. destruct He as [_ Hi].
  unfold window_at. simpl. split.
  - apply slice_length. unfold features. rewrite length_map. len_lia.
  - apply Forall_forall. intros t Ht.
    assert (H : In t (features feature_cols (group d p)))
      by (eapply slice_In; exact Ht).
    unfold features in H. apply in_map_iff in H. destruct H as (row & <- & _).
    apply length_map.
Qed.

(** C8.  The appends are made player by player, in ascending order of
    player identifier, and for one player in increasing order of start
    index: between two appends of one player there is no append of another,
    and the window and target at each output position are those of the
    append at that position. *)
Theorem player_then_position_order w r seq_length feature_cols target_col :
  builder_ready (deref w r) feature_cols target_col = true ->
  let d := deref w r in
  let run := create_sequences (Some r) seq_length feature_cols target_col w in
  let h := history_since w (snd run) in
  fst run = Returns (Some (map (window_at d feature_cols seq_length) h),
                     Some (map (target_at d target_col seq_length) h))
  /\ h = flat_map (fun p => map (pair p) (seq 0 (row_count d p - seq_length)))
                  (players d)
  /\ StronglySorted Z.lt (players d)
  /\ (forall a b c ea eb ec,
        a < b -> b < c ->
        nth_error h a = Some ea -> nth_error h b = Some eb ->
        nth_error h c = Some ec ->
        fst ea = fst ec -> fst eb = fst ea)
  /\ (forall a b ea eb,
        a < b -> nth_error h a = Some ea -> nth_error h b = Some eb ->
        fst ea = fst eb -> snd ea < snd eb).
Proof.
  intros Hready d run h.
  destruct (create_sequences_ready r seq_length feature_cols target_col w Hready)
    as (Hout & Hh & _).
  fold d in Hout, Hh. fold run in Hout, Hh. fold h in Hh.
  rewrite Hh. split; [exact Hout|].
  split.
  { unfold schedule. apply flat_map_ext. intros p. now rewrite group_length. }
  split; [apply players_sorted|].
  assert (Hs := schedule_sorted d seq_length).
  split.
  - intros a b c ea eb ec Hab Hbc Ha Hb Hc E.
    assert (H1 := StronglySorted_nth _ _ Hs a b ea eb Hab Ha Hb).
    assert (H2 := StronglySorted_nth _ _ Hs b c eb ec Hbc Hb Hc).
    unfold entry_lt in H1, H2. lia.
  - intros a b ea eb Hab Ha Hb E.
    assert (H1 := StronglySorted_nth _ _ Hs a b ea eb Hab Ha Hb).
    unfold entry_lt in H1. lia.
Qed.

(** C7.  Two calls in a row on the same reference give the same outcome,
    and neither call changes any object that existed before it: the table
    behind the reference is the same after each call. *)
Theorem builder_pure w r seq_length feature_cols target_col :
  let run1 := create_sequences (Some r) seq_length feature_cols target_col w in
  let run2 := create_sequences (Some r) seq_length feature_cols target_col
                (snd run1) in
  fst run2 = fst run1
  /\ deref (snd run1) r = deref w r
  /\ deref (snd run2) r = deref w r
  /\ (forall r', r' < length (objects w) ->
                 deref (snd run1) r' = deref w r'
                 /\ deref (snd run2) r' = deref w r').
Proof.
  intros run1 run2.
  destruct (create_sequences_run r seq_length feature_cols target_col w)
    as (w1 & Hrun1 & Hext1 & _).
  destruct (create_sequences_run r seq_length feature_cols target_col w1)
    as (w2 & Hrun2 & Hext2 & _).
  assert (E1 : snd run1 = w1) by (unfold run1; now rewrite Hrun1).
  assert (Hold : forall r', r' < length (objects w) ->
                   deref w1 r' = deref w r' /\ deref w2 r' = deref w r').
  { intros r' Hr'. split.
    - now apply deref_extends.
    - rewrite (deref_extends w1 w2) by
        (try exact Hext2; apply extends_length in Hext1; lia).
      now apply deref_extends. }
  assert (Hr : deref w1 r = deref w r).
  { destruct (Nat.lt_ge_cases r (length (objects w))) as [Hlt|Hge].
    - now apply Hold.
    - (* a dangling reference reads as the empty frame, which has no
         gameweek column: the call returns at once and allocates nothing *)
      assert (Hd : deref w r = empty_frame)
        by (unfold deref; now apply nth_overflow).
      unfold create_sequences in Hrun1.
      rewrite (bind_returns _ _ _ _ _ (get_run r w)), Hd in Hrun1.
      simpl in Hrun1. unfold ret in Hrun1. inversion Hrun1; subst w1.
      reflexivity. }
  assert (E2 : run2 = (builder_outcome (deref w1 r) seq_length feature_cols
                         target_col, w2))
    by (unfold run2; rewrite E1; exact Hrun2).
  rewrite E2, E1. unfold run1. rewrite Hrun1. simpl.
  split; [now rewrite Hr|]. split; [exact Hr|].
  split; [|exact Hold].
  destruct (Nat.lt_ge_cases r (length (objects w))) as [Hlt|Hge].
  - now apply Hold.
  - assert (Hd : deref w r = empty_frame)
      by (unfold deref; now apply nth_overflow).
    unfold create_sequences in Hrun2.
    rewrite (bind_returns _ _ _ _ _ (get_run r w1)), Hr, Hd in Hrun2.
    simpl in Hrun2. unfold ret in Hrun2. inversion Hrun2; subst w2.
    exact Hr.
Qed.

(** ** predict_next_gameweek *)

Lemma iloc_last_run r n w :
  iloc_last r n w =
  (Returns (length (objects w)),
   mkWorld (objects w ++
            [mkDataFrame (columns (deref w r)) (last_rows n (rows (deref w r)))])
           (appended w)).
Proof. reflexivity. Qed.

Lemma predict_loop_cons {P} (model : Matrix -> P) sorted_df seq_length
    feature_cols p ps predictions :
  predict_loop model sorted_df seq_length feature_cols (p :: ps) predictions =
  (selected <- select_eq sorted_df "player_id" p ;;
   player_data <- reset_index_drop selected ;;
   n <- len player_data ;;
   if (seq_length <=? n)%nat
   then
     last_rows <- iloc_last player_data seq_length ;;
     seq <- frame_values last_rows feature_cols ;;
     predict_loop model sorted_df seq_length feature_cols ps
       (dict_set predictions p (model seq))
   else
     predict_loop model sorted_df seq_length feature_cols ps predictions).
Proof. reflexivity. Qed.

Lemma extends_three w g1 g2 g3 h :
  extends w (mkWorld (((objects w ++ [g1]) ++ [g2]) ++ [g3]) h).
Proof. exists [g1; g2; g3]. simpl. now rewrite <- !app_assoc. Qed.

(** The loop of [predict_next_gameweek] when the feature columns are
    there. *)
Lemma predict_loop_run {P} (model : Matrix -> P) df seq_length feature_cols s :
  has_column s "player_id" = true ->
  missing_columns s feature_cols = [] ->
  forall ps predictions w,
    df < length (objects w) -> deref w df = s ->
    exists w',
      predict_loop model df seq_length feature_cols ps predictions w =
      (Returns (fold_left
                  (fun preds p =>
                     if (seq_length <=? length (rows_of_player s p))%nat
                     then dict_set preds p
                            (model (features feature_cols
                                      (last_rows seq_length (rows_of_player s p))))
                     else preds) ps predictions),
       w')
      /\ extends w w'.
Proof.
  intros Hpid Hfc. induction ps as [|p ps IH]; intros preds w Hdf Hs.
  - exists w. split; [reflexivity | apply extends_refl].
  - rewrite predict_loop_cons.
    rewrite (bind_returns _ _ _ _ _
               (select_eq_run _ _ _ _ ltac:(rewrite Hs; exact Hpid))).
    rewrite (bind_returns _ _ _ _ _ (reset_index_drop_run _ _)).
    rewrite (bind_returns _ _ _ _ _ (len_run _ _)).
    cbn [objects appended]. rewrite !deref_fresh, Hs.
    set (g := mkDataFrame (columns s) _).
    change (rows g) with (rows_of_player s p).
    cbn [fold_left].
    destruct (seq_length <=? length (rows_of_player s p))%nat.
    + rewrite (bind_returns _ _ _ _ _ (iloc_last_run _ _ _)).
      cbn [objects appended]. rewrite !deref_fresh.
      set (t := mkDataFrame (columns g) _).
      assert (Ht : frame_values (length ((objects w ++ [g]) ++ [g])) feature_cols
                     (mkWorld (((objects w ++ [g]) ++ [g]) ++ [t]) (appended w))
                   = (Returns (features feature_cols
                                 (last_rows seq_length (rows_of_player s p))),
                      mkWorld (((objects w ++ [g]) ++ [g]) ++ [t]) (appended w))).
      { rewrite frame_values_run; rewrite deref_fresh; [reflexivity | exact Hfc]. }
      rewrite (bind_returns _ _ _ _ _ Ht).
      destruct (IH (dict_set preds p
                      (model (features feature_cols
                                (last_rows seq_length (rows_of_player s p)))))
                  (mkWorld (((objects w ++ [g]) ++ [g]) ++ [t]) (appended w)))
        as (w' & Hrun & Hext).
      { simpl. rewrite !length_app. simpl. lia. }
      { rewrite (deref_extends w); [exact Hs | apply extends_three | exact Hdf]. }
      exists w'. split; [exact Hrun|].
      eapply extends_trans; [apply extends_three | exact Hext].
    + destruct (IH preds (mkWorld ((objects w ++ [g]) ++ [g]) (appended w)))
        as (w' & Hrun & Hext).
      { apply length_two; exact Hdf. }
      { rewrite deref_two by exact Hdf; exact Hs. }
      exists w'. split; [exact Hrun|].
      eapply extends_trans; [apply extends_two | exact Hext].
Qed.

Lemma predict_next_gameweek_run {P} (model : Matrix -> P) r seq_length
    feature_cols w :
  extractor_ready (deref w r) feature_cols = true ->
  exists w',
    predict_next_gameweek model r seq_length feature_cols w =
    (Returns (predictions_of model (deref w r) feature_cols seq_length
                (players (deref w r)) []), w')
    /\ extends w w'.
Proof.
  set (d := deref w r). unfold extractor_ready. intros H.
  apply andb_true_iff in H. destruct H as [H Hfc].
  apply andb_true_iff in H. destruct H as [Hpid Hgw].
  apply missing_columns_nil in Hfc.
  unfold predict_next_gameweek.
  set (w1 := mkWorld (objects w ++ [sorted_frame d]) (appended w)).
  assert (Hsort : sort_values r ["player_id"; "gameweek"] w =
                  (Returns (length (objects w)), w1)).
  { unfold sort_values. rewrite (bind_returns _ _ _ _ _ (get_run r w)). fold d.
    unfold missing_columns. simpl. rewrite Hpid, Hgw. reflexivity. }
  rewrite (bind_returns _ _ _ _ _ Hsort).
  assert (Hs : deref w1 (length (objects w)) = sorted_frame d)
    by (unfold w1; apply deref_fresh).
  rewrite (bind_returns _ _ _ _ _
             (column_values_run _ _ _ ltac:(rewrite Hs; exact Hpid))).
  rewrite Hs. change (unique _) with (players d).
  destruct (predict_loop_run model (length (objects w)) seq_length feature_cols
              (sorted_frame d) Hpid Hfc (players d) [] w1)
    as (w' & Hrun & Hext).
  { unfold w1. simpl. rewrite length_app. simpl. lia. }
  { exact Hs. }
  exists w'. split; [exact Hrun|].
  eapply extends_trans; [|exact Hext]. destruct w; apply extends_push.
Qed.

(** *** The dictionary *)

Lemma dict_get_set_same {V} (d : list (Z * V)) k v :
  dict_get (dict_set d k v) k = Some v.
Proof.
  induction d as [|[k' v'] d IH]; simpl.
  - now rewrite Z.eqb_refl.
  - destruct (k' =? k)%Z eqn:E; simpl; [now rewrite Z.eqb_refl|].
    now rewrite E.
Qed.

Lemma dict_get_set_other {V} (d : list (Z * V)) k v k' :
  k <> k' -> dict_get (dict_set d k v) k' = dict_get d k'.
Proof.
  intros Hne. induction d as [|[q v'] d IH]; simpl.
  - destruct (Z.eqb_spec k k'); [contradiction | reflexivity].
  - destruct (Z.eqb_spec q k) as [->|Hq]; simpl.
    + destruct (Z.eqb_spec k k'); [contradiction | reflexivity].
    + destruct (q =? k')%Z; [reflexivity | exact IH].
Qed.

Lemma dict_set_keys {V} (d : list (Z * V)) k v q :
  In q (map fst (dict_set d k v)) <-> q = k \/ In q (map fst d).
Proof.
  induction d as [|[k' v'] d IH]; simpl.
  - intuition.
  - destruct (Z.eqb_spec k' k) as [->|Hne]; simpl.
    + intuition.
    + rewrite IH. intuition.
Qed.

Lemma dict_set_NoDup {V} (d : list (Z * V)) k v :
  NoDup (map fst d) -> NoDup (map fst (dict_set d k v)).
Proof.
  induction d as [|[k' v'] d IH]; simpl; intros H.
  - constructor; [intros [] | constructor].
  - inversion H as [|? ? Hn Hd]; subst.
    destruct (Z.eqb_spec k' k) as [->|Hne]; simpl.
    + now constructor.
    + constructor; [|now apply IH].
      rewrite dict_set_keys. intros [E|Hin]; [congruence | contradiction].
Qed.

Section Predictions.
Context {P : Type} (model : Matrix -> P) (d : DataFrame)
        (feature_cols : list string) (seq_length : nat).
Local Abbreviation predicted p :=
  (model (features feature_cols (last_rows seq_length (group d p)))).

Lemma predictions_of_NoDup ps acc :
  NoDup (map fst acc) ->
  NoDup (map fst (predictions_of model d feature_cols seq_length ps acc)).
Proof.
  revert acc. induction ps as [|q ps IH]; intros acc H; simpl; [exact H|].
  apply IH. destruct (seq_length <=? length (group d q))%nat; [|exact H].
  now apply dict_set_NoDup.
Qed.

Lemma predictions_of_other ps acc p :
  ~ In p ps ->
  dict_get (predictions_of model d feature_cols seq_length ps acc) p
  = dict_get acc p.
Proof.
  revert acc. induction ps as [|q ps IH]; intros acc Hn; simpl; [reflexivity|].
  rewrite IH by (intros H; apply Hn; now right).
  destruct (seq_length <=? length (group d q))%nat; [|reflexivity].
  apply dict_get_set_other. intros ->. apply Hn. now left.
Qed.

Lemma predictions_of_player ps acc p :
  In p ps ->
  dict_get (predictions_of model d feature_cols seq_length ps acc) p
  = if (seq_length <=? length (group d p))%nat
    then Some (predicted p) else dict_get acc p.
Proof.
  revert acc. induction ps as [|q ps IH]; intros acc Hin; [destruct Hin|].
  simpl. destruct (in_dec Z.eq_dec p ps) as [Hp|Hp].
  - rewrite IH by exact Hp.
    destruct (seq_length <=? length (group d p))%nat eqn:E; [reflexivity|].
    destruct (Z.eq_dec q p) as [->|Hne]; [now rewrite E|].
    destruct (seq_length <=? length (group d q))%nat; [|reflexivity].
    now apply dict_get_set_other.
  - destruct Hin as [->|Hin]; [|contradiction].
    rewrite predictions_of_other by exact Hp.
    destruct (seq_length <=? length (group d p))%nat; [|reflexivity].
    apply dict_get_set_same.
Qed.
End Predictions.

(** C3.  For a window length of at least one, [predict_next_gameweek] leaves
    a player without prediction exactly when the player has fewer than
    [seq_length] rows; otherwise the dictionary holds one prediction for the
    player, the model's value on the feature tuples of the last [seq_length]
    rows of the player's group, which is in ascending gameweek order.  No
    player has two entries. *)
Theorem latest_window_prediction {P} (model : Matrix -> P) w r seq_length
    feature_cols p :
  1 <= seq_length ->
  extractor_ready (deref w r) feature_cols = true ->
  let d := deref w r in
  let latest := skipn (row_count d p - seq_length) (group d p) in
  exists predictions,
    fst (predict_next_gameweek model r seq_length feature_cols w)
    = Returns predictions
    /\ NoDup (map fst predictions)
    /\ (dict_get predictions p = None <-> row_count d p < seq_length)
    /\ (seq_length <= row_count d p ->
        dict_get predictions p = Some (model (features feature_cols latest))
        /\ length latest = seq_length)
    /\ StronglySorted (fun a b => a "gameweek" <= b "gameweek")%Z (group d p).
Proof.
  intros HL Hready d latest.
  destruct (predict_next_gameweek_run model r seq_length feature_cols w Hready)
    as (w' & Hrun & _).
  fold d in Hrun. rewrite Hrun. simpl.
  eexists. split; [reflexivity|].
  split; [apply predictions_of_NoDup; constructor|].
  assert (Hlast : last_rows seq_length (group d p) = latest).
  { unfold last_rows, latest. destruct seq_length; [lia|].
    now rewrite group_length. }
  assert (Hget : seq_length <= row_count d p ->
                 dict_get (predictions_of model d feature_cols seq_length
                             (players d) []) p
                 = Some (model (features feature_cols latest))).
  { intros Hn. rewrite predictions_of_player
      by (apply players_row_count; lia).
    rewrite group_length.
    assert (E : (seq_length <=? row_count d p)%nat = true)
      by now apply Nat.leb_le.
    now rewrite E, Hlast. }
  split; [|split; [|apply group_sorted]].
  - split.
    + intros Hnone.
      destruct (Nat.lt_ge_cases (row_count d p) seq_length) as [Hlt|Hge];
        [exact Hlt|].
      rewrite (Hget Hge) in Hnone. discriminate.
    + intros Hlt. destruct (in_dec Z.eq_dec p (players d)) as [Hp|Hp].
      * rewrite predictions_of_player by exact Hp.
        rewrite group_length.
        assert (E : (seq_length <=? row_count d p)%nat = false)
          by (apply Nat.leb_gt; exact Hlt).
        now rewrite E.
      * now rewrite predictions_of_other by exact Hp.
  - intros Hn. split; [now apply Hget|].
    unfold latest. rewrite length_skipn, group_length. lia.
Qed.

(** ** In-place assignment *)

Lemma list_set_length {A} (l : list A) n a : length (list_set l n a) = length l.
Proof.
  revert n. induction l as [|x l IH]; intros [|n]; simpl; auto.
Qed.

Lemma list_set_nth_same {A} (l : list A) n a dflt :
  n < length l -> nth n (list_set l n a) dflt = a.
Proof.
  revert n. induction l as [|x l IH]; intros [|n] H; simpl in *; try lia.
  - reflexivity.
  - apply IH. lia.
Qed.

Lemma combine_map_self {A B C} (g : A * B -> C) (h : A -> B) (l : list A) :
  map g (combine l (map h l)) = map (fun x => g (x, h x)) l.
Proof. induction l as [|x l IH]; simpl; [reflexivity | now rewrite IH]. Qed.

Lemma has_shape_column (values : list Z) n :
  length values = n -> has_shape (map (fun v => [v]) values) n 1 = true.
Proof.
  intros H. unfold has_shape. rewrite length_map, H, Nat.eqb_refl. simpl.
  apply forallb_forall. intros t Ht. apply in_map_iff in Ht.
  now destruct Ht as (v & <- & _).
Qed.

(** [df[c] = values] replaces the object behind the reference by the frame
    with the new cells under [c]. *)
Lemma assign_column_run r c (h : Row -> Z) w :
  let d := deref w r in
  assign_column r c (map h (rows d)) w =
  (Returns tt,
   mkWorld (list_set (objects w) r
              (mkDataFrame (columns d ++ missing_columns d [c])
                 (map (fun row => set_cell row c (h row)) (rows d))))
           (appended w)).
Proof.
  intros d. unfold assign_column, assign_columns.
  rewrite (bind_returns _ _ _ _ _ (get_run r w)). fold d.
  rewrite has_shape_column by (rewrite length_map; reflexivity).
  unfold put. do 3 f_equal. f_equal.
  rewrite map_map.
  exact (combine_map_self
           (fun rt : Row * Tuple => set_cells [c] (snd rt) (fst rt))
           (fun row => [h row]) (rows d)).
Qed.

Lemma has_column_app cs1 cs2 rs c :
  has_column (mkDataFrame (cs1 ++ cs2) rs) c
  = has_column (mkDataFrame cs1 rs) c || has_column (mkDataFrame cs2 rs) c.
Proof. unfold has_column. simpl. apply existsb_app. Qed.

(** ** The player file before it is saved *)

Lemma deref_put l h r d :
  r < length l -> deref (mkWorld (list_set l r d) h) r = d.
Proof. intros H. unfold deref. simpl. now apply list_set_nth_same. Qed.

Lemma assign_scalar_run r c v w :
  let d := deref w r in
  assign_scalar r c v w =
  (Returns tt,
   mkWorld (list_set (objects w) r
              (mkDataFrame (columns d ++ missing_columns d [c])
                 (map (fun row => set_cell row c v) (rows d))))
           (appended w)).
Proof.
  intros d. unfold assign_scalar.
  rewrite (bind_returns _ _ _ _ _ (get_run r w)).
  exact (assign_column_run r c (fun _ => v) w).
Qed.

Lemma reset_index_run r w :
  has_column (deref w r) "index" = false ->
  let d := deref w r in
  reset_index r w =
  (Returns (length (objects w)),
   mkWorld (objects w ++
            [mkDataFrame ("index" :: columns d)
               (map (fun kr => set_cell (snd kr) "index" (Z.of_nat (fst kr)))
                    (combine (seq 0 (length (rows d))) (rows d)))])
           (appended w)).
Proof.
  intros H d. unfold reset_index.
  rewrite (bind_returns _ _ _ _ _ (get_run r w)). fold d.
  fold d in H. rewrite H. cbv zeta. rewrite H. reflexivity.
Qed.

Lemma rename_column_run r old new w :
  has_column (deref w r) old = true ->
  let d := deref w r in
  rename_column r old new w =
  (Returns (length (objects w)),
   mkWorld (objects w ++
            [mkDataFrame
               (map (fun c => if String.eqb c old then new else c) (columns d))
               (map (fun row => set_cell row new (row old)) (rows d))])
           (appended w)).
Proof.
  intros H d. unfold rename_column.
  rewrite (bind_returns _ _ _ _ _ (get_run r w)). fold d.
  fold d in H. now rewrite H.
Qed.

Lemma tag_rows_eq id (l : list Row) a :
  map (fun row : Row => set_cell row "gameweek" (row "gameweek" + 1)%Z)
    (map (fun row : Row => set_cell row "gameweek" (row "index"))
       (map (fun kr : nat * Row => set_cell (snd kr) "index" (Z.of_nat (fst kr)))
          (combine (seq a (length l))
             (map (fun row : Row => set_cell row "player_id" id) l))))
  = map (tag_row id) (combine (seq a (length l)) l).
Proof.
  revert a. induction l as [|row l IH]; intros a; simpl; [reflexivity|].
  f_equal. apply IH.
Qed.

Lemma tag_player_file_run df id w :
  df < length (objects w) ->
  has_column (deref w df) "gameweek" = false ->
  has_column (deref w df) "index" = false ->
  let d := deref w df in
  exists w' cs,
    tag_player_file df id w = (Returns (S (length (objects w))), w')
    /\ deref w' (S (length (objects w))) =
       mkDataFrame ("gameweek" :: cs)
         (map (tag_row id) (combine (seq 0 (length (rows d))) (rows d)))
    /\ (forall c, has_column d c = true -> In c cs).
Proof.
  intros Hdf Hgw Hidx d. fold d in Hgw, Hidx. unfold tag_player_file.
  (* df['player_id'] = row['id'] *)
  rewrite (bind_returns _ _ _ _ _ (assign_scalar_run df "player_id" id w)).
  fold d.
  set (d1 := mkDataFrame (columns d ++ missing_columns d ["player_id"])
               (map (fun row => set_cell row "player_id" id) (rows d))).
  set (w1 := mkWorld (list_set (objects w) df d1) (appended w)).
  assert (Hd1 : deref w1 df = d1) by (unfold w1; now apply deref_put).
  rewrite (bind_returns _ _ _ _ _ (get_run df w1)), Hd1.
  assert (Hcol1 : forall c, c <> "player_id" ->
                            has_column d1 c = has_column d c).
  { intros c Hc. unfold d1. rewrite has_column_app.
    change (has_column (mkDataFrame (columns d) _) c) with (has_column d c).
    unfold missing_columns. simpl.
    destruct (has_column d "player_id"); simpl; [apply orb_false_r|].
    unfold has_column. simpl.
    destruct (String.eqb_spec c "player_id"); [contradiction|].
    apply orb_false_r. }
  rewrite (Hcol1 "gameweek") by discriminate. rewrite Hgw. cbn [negb].
  (* df.reset_index() *)
  assert (Hidx1 : has_column (deref w1 df) "index" = false)
    by (rewrite Hd1, Hcol1 by discriminate; exact Hidx).
  rewrite (bind_returns _ _ _ _ _ (reset_index_run df w1 Hidx1)), Hd1.
  set (d2 := mkDataFrame ("index" :: columns d1) _).
  set (w2 := mkWorld (objects w1 ++ [d2]) (appended w1)).
  assert (Hd2 : deref w2 (length (objects w1)) = d2)
    by (unfold w2; apply deref_fresh).
  (* .rename(columns={'index': 'gameweek'}) *)
  assert (Hi2 : has_column (deref w2 (length (objects w1))) "index" = true)
    by (rewrite Hd2; reflexivity).
  rewrite (bind_returns _ _ _ _ _
             (rename_column_run _ "index" "gameweek" w2 Hi2)), Hd2.
  set (d3 := mkDataFrame (map _ (columns d2)) _).
  set (w3 := mkWorld (objects w2 ++ [d3]) (appended w2)).
  assert (Hd3 : deref w3 (length (objects w2)) = d3)
    by (unfold w3; apply deref_fresh).
  (* df['gameweek'] = df['gameweek'] + 1 *)
  assert (Hg3 : has_column (deref w3 (length (objects w2))) "gameweek" = true)
    by (rewrite Hd3; reflexivity).
  rewrite (bind_returns _ _ _ _ _ (column_values_run _ _ w3 Hg3)), Hd3.
  rewrite map_map.
  assert (H4 := assign_column_run (length (objects w2)) "gameweek"
                  (fun row => (row "gameweek" + 1)%Z) w3).
  cbv zeta in H4. rewrite Hd3 in H4.
  rewrite (bind_returns _ _ _ _ _ H4). clear H4.
  assert (Hlen : length (objects w2) = S (length (objects w))).
  { unfold w2, w1. simpl. rewrite length_app, list_set_length. simpl. lia. }
  unfold ret. rewrite Hlen.
  eexists. exists (map (fun c => if String.eqb c "index" then "gameweek" else c)
                  (columns d1) ++ missing_columns d3 ["gameweek"]).
  split; [reflexivity|]. split.
  - rewrite deref_put
      by (unfold w3, w2, w1; simpl; rewrite !length_app, list_set_length;
          simpl; lia).
    unfold d3 at 1. simpl columns. f_equal.
    unfold d3, d2, d1. simpl rows.
    rewrite length_map. apply tag_rows_eq.
  - intros c Hc. apply in_or_app. left.
    apply in_map_iff. exists c. split.
    + destruct (String.eqb_spec c "index") as [->|]; [congruence | reflexivity].
    + unfold d1. simpl. apply in_or_app. left.
      unfold has_column in Hc. apply existsb_exists in Hc.
      destruct Hc as (c' & Hin & E). apply String.eqb_eq in E. now subst.
Qed.

Lemma Forall2_tagged {Q : Row -> Row -> Prop} (G : nat * Row -> Row) l :
  (forall k row, Q row (G (k, row))) ->
  forall a, Forall2 Q l (map G (combine (seq a (length l)) l)).
Proof.
  intros HQ. induction l as [|row l IH]; intros a; simpl; constructor.
  - apply HQ.
  - apply IH.
Qed.

Lemma gameweek_tagged id l a :
  map (fun row : Row => row "gameweek")
      (map (tag_row id) (combine (seq a (length l)) l))
  = map (fun k => (Z.of_nat k + 1)%Z) (seq a (length l)).
Proof.
  revert a. induction l as [|row l IH]; intros a; simpl; [reflexivity|].
  f_equal. apply IH.
Qed.

(** On a file that has no [gameweek] column and no column named [index],
    the lines of [ingest_data] do what their comment says: the frame that is
    saved has a [gameweek] column whose value in row [k] (counting from 0)
    is [k + 1], so the values are 1..n in the row order of the file, whose
    other cells are kept and whose [player_id] cells hold the player's
    identifier. *)
Theorem gameweek_synthesized df id w :
  df < length (objects w) ->
  has_column (deref w df) "gameweek" = false ->
  has_column (deref w df) "index" = false ->
  let d := deref w df in
  exists saved w',
    tag_player_file df id w = (Returns saved, w')
    /\ has_column (deref w' saved) "gameweek" = true
    /\ map (fun row : Row => row "gameweek") (rows (deref w' saved))
       = map (fun k => (Z.of_nat k + 1)%Z) (seq 0 (length (rows d)))
    /\ Forall2 (fun row row' : Row =>
                  row' "player_id" = id
                  /\ forall c, has_column d c = true -> c <> "player_id" ->
                               row' c = row c)
               (rows d) (rows (deref w' saved))
    /\ (forall c, has_column d c = true -> has_column (deref w' saved) c = true).
Proof.
  intros Hdf Hgw Hidx d.
  destruct (tag_player_file_run df id w Hdf Hgw Hidx)
    as (w' & cs & Hrun & Hd' & Hcs).
  fold d in Hd', Hcs, Hgw, Hidx.
  exists (S (length (objects w))), w'. rewrite Hd'.
  split; [exact Hrun|]. split; [reflexivity|].
  split; [apply gameweek_tagged|]. split.
  - simpl rows. apply Forall2_tagged. intros k row. split; [reflexivity|].
    intros c Hc Hpid. unfold tag_row, set_cell. simpl.
    destruct (String.eqb_spec c "gameweek") as [->|_]; [congruence|].
    destruct (String.eqb_spec c "index") as [->|_]; [congruence|].
    destruct (String.eqb_spec c "player_id"); [contradiction | reflexivity].
  - intros c Hc. unfold has_column. simpl.
    apply orb_true_iff. right. apply existsb_exists. exists c.
    split; [now apply Hcs | apply String.eqb_refl].
Qed.

(** C9.  The claim fails on a file that has no [gameweek] column and has a
    column named [index]: [reset_index] then puts the positions 0, 1 in a
    column [level_0], the rename to [gameweek] hits the file's own [index]
    column, and the [gameweek] values that are saved are that column plus
    one, 11 and 21, not 1 and 2. *)
Lemma gameweek_not_synthesized_with_index_column :
  let file := frame_of ["minutes"; "index"] [[90; 10]; [45; 20]]%Z in
  has_column file "gameweek" = false
  /\ exists saved w',
       tag_player_file 0 7 (world_of file) = (Returns saved, w')
       /\ map (fun row : Row => row "gameweek") (rows (deref w' saved))
          = [11; 21]%Z
       /\ map (fun row : Row => row "gameweek") (rows (deref w' saved))
          <> map (fun k => (Z.of_nat k + 1)%Z) (seq 0 (length (rows file)))
       /\ columns (deref w' saved)
          = ["level_0"; "minutes"; "gameweek"; "player_id"]
       /\ map (fun row : Row => row "level_0") (rows (deref w' saved))
          = [0; 1]%Z.
Proof.
  split; [reflexivity|].
  eexists _, _. split; [reflexivity|]. split; [reflexivity|].
  split; [discriminate|]. split; reflexivity.
Qed.

(** ** process_data *)

Lemma rename_if_needed_run r old new w :
  r < length (objects w) ->
  exists r' w',
    rename_if_needed r old new w = (Returns r', w')
    /\ extends w w'
    /\ r' < length (objects w')
    /\ deref w' r' = renamed (deref w r) old new
    /\ appended w' = appended w.
Proof.
  intros Hr. unfold rename_if_needed, renamed.
  rewrite (bind_returns _ _ _ _ _ (get_run r w)).
  destruct (has_column (deref w r) old) eqn:Hold; cbn [andb].
  - destruct (has_column (deref w r) new); cbn [negb].
    + exists r, w. repeat split; auto using extends_refl.
    + rewrite (rename_column_run r old new w Hold).
      eexists _, _. split; [reflexivity|]. split; [destruct w; apply extends_push|].
      split; [simpl; rewrite length_app; simpl; lia|].
      split; [apply deref_fresh | reflexivity].
  - exists r, w. repeat split; auto using extends_refl.
Qed.

Lemma set_cells_other cs t row c :
  ~ In c cs -> set_cells cs t row c = row c.
Proof.
  unfold set_cells. revert t row.
  induction cs as [|c' cs IH]; intros t row Hn; [reflexivity|].
  destruct t as [|v t]; [reflexivity|]. simpl.
  rewrite IH by (intros H; apply Hn; now right).
  unfold set_cell. destruct (String.eqb_spec c c'); [|reflexivity].
  exfalso. apply Hn. now left.
Qed.

Lemma has_shape_length m n k : has_shape m n k = true -> length m = n.
Proof.
  unfold has_shape. intros H. apply andb_true_iff in H.
  now apply Nat.eqb_eq.
Qed.

(** Normalisation keeps every cell outside the feature columns. *)
Lemma normalized_frame d scaled :
  length scaled = length (rows d) ->
  Forall2 (fun row row' : Row =>
             forall c, ~ In c feature_columns -> row' c = row c)
          (rows d) (rows (normalized d scaled)).
Proof.
  unfold normalized. simpl rows. generalize (rows d) as l. intros l.
  revert scaled. induction l as [|row l IH]; intros [|t scaled] H;
    simpl in *; try discriminate; constructor.
  - intros c Hc. now apply set_cells_other.
  - apply IH. lia.
Qed.

Section Related.
Variable target_col : string.
Local Abbreviation R := (same_keys_target target_col).

Lemma related_lex_le a a' b b' :
  R a a' -> R b b' -> lex_le key_cols a b = lex_le key_cols a' b'.
Proof.
  intros (Ha1 & Ha2 & _) (Hb1 & Hb2 & _). unfold key_cols. simpl.
  now rewrite Ha1, Ha2, Hb1, Hb2.
Qed.

Lemma insert_row_related r r' l l' :
  R r r' -> Forall2 R l l' ->
  Forall2 R (insert_row key_cols r l) (insert_row key_cols r' l').
Proof.
  intros Hr H. induction H as [|x x' l l' Hx Hl IH]; cbn [insert_row].
  - constructor; [exact Hr | constructor].
  - rewrite (related_lex_le r r' x x' Hr Hx).
    destruct (lex_le key_cols r' x').
    + constructor; [exact Hr|]. constructor; [exact Hx | exact Hl].
    + constructor; [exact Hx | exact IH].
Qed.

Lemma sort_rows_related l l' :
  Forall2 R l l' -> Forall2 R (sort_rows key_cols l) (sort_rows key_cols l').
Proof.
  induction 1 as [|x x' l l' Hx Hl IH]; simpl; [constructor|].
  now apply insert_row_related.
Qed.

Lemma filter_player_related p l l' :
  Forall2 R l l' ->
  Forall2 R (filter (fun row : Row => (row "player_id" =? p)%Z) l)
            (filter (fun row : Row => (row "player_id" =? p)%Z) l').
Proof.
  induction 1 as [|x x' l l' Hx Hl IH]; simpl; [constructor|].
  destruct Hx as (E & Hx). rewrite <- E.
  destruct (x "player_id" =? p)%Z; [|exact IH].
  constructor; [|exact IH]. split; [exact E | exact Hx].
Qed.

Lemma related_map (f : Row -> Z) l l' :
  (forall a b, R a b -> f a = f b) ->
  Forall2 R l l' -> map f l = map f l'.
Proof.
  intros Hf. induction 1 as [|x x' l l' Hx Hl IH]; simpl; [reflexivity|].
  now rewrite (Hf x x' Hx), IH.
Qed.

(** Tables whose rows agree, position by position, on the keys and on the
    target cell have the same schedule and the same targets. *)
Lemma related_tables d d' seq_length :
  Forall2 R (rows d) (rows d') ->
  schedule d' seq_length = schedule d seq_length
  /\ forall e, target_at d' target_col seq_length e
               = target_at d target_col seq_length e.
Proof.
  intros H.
  assert (Hs : Forall2 R (sorted_rows d) (sorted_rows d'))
    by now apply sort_rows_related.
  assert (Hg : forall p, Forall2 R (group d p) (group d' p))
    by (intros p; now apply filter_player_related).
  assert (Hp : players d' = players d).
  { unfold players. f_equal. symmetry.
    apply related_map; [|exact Hs]. now intros a b (E & _). }
  split.
  - unfold schedule. rewrite Hp. apply flat_map_ext. intros p.
    now rewrite (Forall2_length (Hg p)).
  - intros e. unfold target_at. f_equal. symmetry.
    apply related_map; [|apply Hg]. now intros a b (_ & _ & E).
Qed.
End Related.

Lemma renames_run r w :
  r < length (objects w) ->
  exists df w3,
    (forall B (k : ref -> py B),
        (df <- rename_if_needed r "total_points" "points" ;;
         df <- rename_if_needed df "mins" "minutes" ;;
         df <- rename_if_needed df "goals_scored" "goals" ;;
         k df) w = k df w3)
    /\ extends w w3
    /\ df < length (objects w3)
    /\ deref w3 df = after_renames (deref w r)
    /\ appended w3 = appended w.
Proof.
  intros Hr.
  destruct (rename_if_needed_run r "total_points" "points" w Hr)
    as (r1 & w1 & H1 & E1 & L1 & D1 & A1).
  destruct (rename_if_needed_run r1 "mins" "minutes" w1 L1)
    as (r2 & w2 & H2 & E2 & L2 & D2 & A2).
  destruct (rename_if_needed_run r2 "goals_scored" "goals" w2 L2)
    as (r3 & w3 & H3 & E3 & L3 & D3 & A3).
  exists r3, w3. split.
  { intros B k.
    now rewrite (bind_returns _ _ _ _ _ H1), (bind_returns _ _ _ _ _ H2),
      (bind_returns _ _ _ _ _ H3). }
  split; [eauto using extends_trans|]. split; [exact L3|].
  split; [unfold after_renames; now rewrite D3, D2, D1 | congruence].
Qed.

Lemma has_column_normalized d scaled c :
  missing_columns d feature_columns = [] ->
  has_column (normalized d scaled) c = has_column d c.
Proof.
  intros H. unfold normalized. now rewrite H, app_nil_r.
Qed.

Lemma required_features d :
  forallb (has_column d) required_cols = true ->
  missing_columns d feature_columns = []
  /\ has_column d "gameweek" = true /\ has_column d "player_id" = true
  /\ has_column d "points" = true.
Proof.
  unfold required_cols. simpl. rewrite !andb_true_iff.
  intros (Hp & Hg & Hm & Hgo & Ha & Hpt & _).
  unfold missing_columns, feature_columns. simpl.
  now rewrite Hm, Hgo, Ha.
Qed.

(** [process_data] on a player table that has the required columns and on
    which the scaler returns an array of the shape of its input: the table
    is normalised in place and handed to [create_sequences]. *)
Lemma process_data_run fit_transform r w scaled :
  r < length (objects w) ->
  let d := after_renames (deref w r) in
  forallb (has_column d) required_cols = true ->
  fit_transform (features feature_columns (rows d)) = Returns scaled ->
  has_shape scaled (length (rows d)) 3 = true ->
  exists df w',
    process_data fit_transform (Some r) w =
    (Returns (mkPdata (Some df)
                (Some (map (window_at (normalized d scaled) feature_columns 5)
                           (schedule (normalized d scaled) 5)))
                (Some (map (target_at (normalized d scaled) "points" 5)
                           (schedule (normalized d scaled) 5)))),
     w')
    /\ deref w' df = normalized d scaled.
Proof.
  intros Hr d Hreq Hfit Hshape.
  destruct (renames_run r w Hr) as (df & w3 & Hk & _ & Hdf & Hd & _).
  fold d in Hd.
  destruct (required_features d Hreq) as (Hmiss & Hgw & Hpid & Hpts).
  unfold process_data. rewrite Hk.
  rewrite (bind_returns _ _ _ _ _ (get_run df w3)), Hd, Hreq.
  rewrite (bind_returns _ _ _ _ _
             (frame_values_run df feature_columns w3
                ltac:(rewrite Hd; exact Hmiss))), Hd.
  assert (Hlift : lift (fit_transform (features feature_columns (rows d))) w3
                  = (Returns scaled, w3))
    by (unfold lift; now rewrite Hfit).
  rewrite (bind_returns _ _ _ _ _ Hlift).
  set (w4 := mkWorld (list_set (objects w3) df (normalized d scaled))
               (appended w3)).
  assert (Hassign : assign_columns df feature_columns scaled w3
                    = (Returns tt, w4)).
  { unfold assign_columns.
    rewrite (bind_returns _ _ _ _ _ (get_run df w3)), Hd.
    change (length feature_columns) with 3. now rewrite Hshape. }
  rewrite (bind_returns _ _ _ _ _ Hassign).
  assert (Hd4 : deref w4 df = normalized d scaled)
    by (unfold w4; now apply deref_put).
  destruct (create_sequences_run df 5 feature_columns "points" w4)
    as (w' & Hrun & Hext & _).
  rewrite Hd4 in Hrun.
  assert (Hready : builder_ready (normalized d scaled) feature_columns "points"
                   = true).
  { unfold builder_ready. rewrite !has_column_normalized by exact Hmiss.
    rewrite Hgw, Hpid, Hpts. simpl.
    rewrite !has_column_normalized by exact Hmiss.
    apply missing_columns_nil in Hmiss. simpl in Hmiss. now rewrite Hmiss. }
  rewrite (builder_outcome_ready _ 5 _ _ Hready) in Hrun.
  rewrite (bind_returns _ _ _ _ _ Hrun).
  exists df, w'. split; [reflexivity|].
  rewrite (deref_extends w4 w' df Hext); [exact Hd4|].
  unfold w4. simpl. now rewrite list_set_length.
Qed.

(** [process_data] on a player table that lacks a required column does not
    call [create_sequences]. *)
Lemma process_data_missing fit_transform r w :
  r < length (objects w) ->
  forallb (has_column (after_renames (deref w r))) required_cols = false ->
  exists df w',
    process_data fit_transform (Some r) w =
    (Returns (mkPdata (Some df) None None), w')
    /\ appended w' = appended w.
Proof.
  intros Hr Hreq.
  destruct (renames_run r w Hr) as (df & w3 & Hk & _ & Hdf & Hd & Ha).
  unfold process_data. rewrite Hk.
  rewrite (bind_returns _ _ _ _ _ (get_run df w3)), Hd, Hreq.
  exists df, w3. split; [reflexivity | exact Ha].
Qed.

Lemma normalized_features d scaled :
  has_shape scaled (length (rows d)) 3 = true ->
  Forall2 (fun (t : Tuple) (row' : Row) => map row' feature_columns = t)
          scaled (rows (normalized d scaled)).
Proof.
  unfold has_shape, normalized. simpl rows. intros H.
  apply andb_true_iff in H. destruct H as [Hn Hk].
  apply Nat.eqb_eq in Hn. revert Hn Hk.
  generalize (rows d) as l. intros l. revert scaled.
  induction l as [|row l IH]; intros [|t scaled] Hn Hk;
    simpl in *; try discriminate; constructor.
  - apply andb_true_iff in Hk. destruct Hk as [Ht _].
    apply Nat.eqb_eq in Ht.
    destruct t as [|a [|b [|c [|? ?]]]]; try discriminate. reflexivity.
  - apply andb_true_iff in Hk. destruct Hk as [_ Hk]. apply IH; [lia | exact Hk].
Qed.

(** C10.  In [process_data] the scaler's output replaces the cells of the
    three feature columns and nothing else: the labels and every other cell
    of the player table are as before, and the targets that
    [create_sequences] returns are the targets of the table before
    normalisation, that is, cells of its [points] column. *)
Theorem normalization_keeps_targets fit_transform r w scaled :
  r < length (objects w) ->
  let d := after_renames (deref w r) in
  forallb (has_column d) required_cols = true ->
  fit_transform (features feature_columns (rows d)) = Returns scaled ->
  has_shape scaled (length (rows d)) 3 = true ->
  exists df X y w',
    process_data fit_transform (Some r) w
    = (Returns (mkPdata (Some df) (Some X) (Some y)), w')
    /\ columns (deref w' df) = columns d
    /\ Forall2 (fun row row' : Row =>
                  forall c, ~ In c feature_columns -> row' c = row c)
               (rows d) (rows (deref w' df))
    /\ Forall2 (fun (t : Tuple) (row' : Row) => map row' feature_columns = t)
               scaled (rows (deref w' df))
    /\ y = map (target_at d "points" 5) (schedule d 5).
Proof.
  intros Hr d Hreq Hfit Hshape.
  destruct (process_data_run fit_transform r w scaled Hr Hreq Hfit Hshape)
    as (df & w' & Hrun & Hd').
  fold d in Hrun, Hd'.
  destruct (required_features d Hreq) as (Hmiss & _).
  assert (Hframe := normalized_frame d scaled (has_shape_length _ _ _ Hshape)).
  eexists df, _, _, w'. split; [exact Hrun|]. rewrite Hd'.
  split; [unfold normalized; cbn [columns]; now rewrite Hmiss, app_nil_r|].
  split; [exact Hframe|]. split; [now apply normalized_features|].
  assert (Hrel : Forall2 (same_keys_target "points") (rows d)
                         (rows (normalized d scaled))).
  { eapply Forall2_impl; [|exact Hframe]. intros a b Hab.
    unfold same_keys_target.
    rewrite !Hab; [auto | | |]; unfold feature_columns; simpl;
      intros [H|[H|[H|[]]]]; discriminate. }
  destruct (related_tables "points" d (normalized d scaled) 5 Hrel) as [Hs Ht].
  rewrite Hs. apply map_ext. exact Ht.
Qed.

(** ** Missing columns and empty results *)

(** C6, as stated, fails when no player has more than [seq_length] rows:
    the feature column [minutes] is absent, and the call returns the empty
    result without any error. *)
Lemma missing_column_unnoticed :
  has_column short_table_no_minutes "minutes" = false
  /\ fst (create_sequences (Some 0) 5 feature_columns "points"
            (world_of short_table_no_minutes))
     = Returns (Some [], Some []).
Proof. split; reflexivity. Qed.

(** C6, amended.  When a required column is absent the call fails as a
    whole, with nothing appended, in these cases.  The [gameweek] column is
    absent: the call returns [(None, None)], whatever else is absent and
    whatever the row counts.  [gameweek] is present and [player_id] is
    absent: the KeyError of [player_id] is raised, whatever the row counts.
    Both are present and some player has more than [seq_length] rows: the
    KeyError that names the absent feature columns is raised, or the KeyError
    of the target column when every feature column is present and the target
    column is absent.  [process_data] checks the required columns before the
    call and reports [X = y = None] when one is absent, without calling
    [create_sequences]. *)
Theorem missing_column_fails w r seq_length feature_cols target_col :
  let d := deref w r in
  let run := create_sequences (Some r) seq_length feature_cols target_col w in
  (has_column d "gameweek" = false ->
   fst run = Returns (None, None) /\ history_since w (snd run) = [])
  /\ (has_column d "gameweek" = true -> has_column d "player_id" = false ->
      fst run = Raises (KeyError ["player_id"])
      /\ history_since w (snd run) = [])
  /\ (forall p,
        has_column d "gameweek" = true -> has_column d "player_id" = true ->
        seq_length < row_count d p ->
        (forallb (has_column d) feature_cols = false ->
         exists labels,
           fst run = Raises (KeyError labels)
           /\ labels <> []
           /\ (forall c, In c labels <->
                          In c feature_cols /\ has_column d c = false)
           /\ history_since w (snd run) = [])
        /\ (forallb (has_column d) feature_cols = true ->
            has_column d target_col = false ->
            fst run = Raises (KeyError [target_col])
            /\ history_since w (snd run) = []))
  /\ (forall fit_transform,
        r < length (objects w) ->
        forallb (has_column (after_renames d)) required_cols = false ->
        exists df w',
          process_data fit_transform (Some r) w
          = (Returns (mkPdata (Some df) None None), w')
          /\ history_since w w' = []).
Proof.
  intros d run.
  destruct (create_sequences_run r seq_length feature_cols target_col w)
    as (w' & Hrun & _ & Hh).
  fold d in Hrun, Hh.
  assert (Hnone : builder_ready d feature_cols target_col = false ->
                  history_since w (snd run) = []).
  { intros Hnot. unfold run. rewrite Hrun. cbn [snd].
    apply history_since_app. now rewrite Hh, Hnot. }
  assert (Hfst : fst run = builder_outcome d seq_length feature_cols target_col)
    by (unfold run; now rewrite Hrun).
  rewrite Hfst. unfold builder_outcome, builder_ready in *.
  split; [|split; [|split]].
  - intros Hgw. rewrite Hgw in *. cbn [negb andb] in *. split; [reflexivity|].
    now apply Hnone.
  - intros Hgw Hpid. rewrite Hgw, Hpid in *. cbn [negb andb] in *.
    split; [reflexivity | now apply Hnone].
  - intros p Hgw Hpid Hp. rewrite Hgw, Hpid in *. cbn [negb andb] in *.
    assert (Hsw : some_window d seq_length = true).
    { unfold some_window. apply existsb_exists. exists p. split.
      - apply players_row_count. lia.
      - apply negb_true_iff, Nat.leb_gt. rewrite group_length. exact Hp. }
    rewrite Hsw. cbn [negb]. split.
    + intros Hfc. rewrite Hfc in Hnone. cbn [andb] in Hnone.
      destruct (missing_columns d feature_cols) as [|m ms] eqn:Hm.
      { apply missing_columns_nil in Hm. congruence. }
      exists (m :: ms). split; [reflexivity|]. split; [discriminate|].
      split; [|now apply Hnone].
      intros c. rewrite <- Hm. unfold missing_columns.
      rewrite filter_In, negb_true_iff. tauto.
    + intros Hfc Htc. rewrite Hfc, Htc in *. cbn [negb andb] in *.
      apply missing_columns_nil in Hfc. rewrite Hfc.
      split; [reflexivity | now apply Hnone].
  - intros fit_transform Hr Hreq.
    destruct (process_data_missing fit_transform r w Hr Hreq)
      as (df & w'' & Hrun' & Ha).
    exists df, w''. split; [exact Hrun'|].
    apply history_since_app. now rewrite app_nil_r.
Qed.

(** C4.  On a table whose only player has three rows, [create_sequences]
    with windows of five returns two empty arrays, not [(None, None)];
    [process_data] passes them on, and the guard of [main], which looks for
    [None], lets the run go on to [train_model] with no example at all. *)
Theorem empty_result_reaches_training :
  fst (create_sequences (Some 0) 5 feature_columns "points"
         (world_of short_table))
  = Returns (Some [], Some [])
  /\ exists data w',
       process_data identity_scaler (Some 0) (world_of short_table)
       = (Returns data, w')
       /\ data_X data = Some [] /\ data_y data = Some []
       /\ main_after_processing data = Train [] [].
Proof.
  split; [reflexivity|].
  eexists _, _. split; [vm_compute; reflexivity|]. repeat split.
Qed.

(** Whenever no player has more than [seq_length] rows, the outcome is the
    pair of empty arrays. *)
Lemma no_window_outcome w r seq_length feature_cols target_col :
  has_column (deref w r) "gameweek" = true ->
  has_column (deref w r) "player_id" = true ->
  some_window (deref w r) seq_length = false ->
  fst (create_sequences (Some r) seq_length feature_cols target_col w)
  = Returns (Some [], Some []).
Proof.
  intros Hgw Hpid Hsw.
  destruct (create_sequences_run r seq_length feature_cols target_col w)
    as (w' & Hrun & _).
  rewrite Hrun. simpl. unfold builder_outcome. now rewrite Hgw, Hpid, Hsw.
Qed.

(** ** The theorems at concrete tables *)

Lemma windows_per_player_witness :
  builder_ready example_table feature_columns "points" = true
  /\ Z.of_nat
       (length
          (filter (fun e : Z * nat => (fst e =? 7)%Z)
             (history_since (world_of example_table)
                (snd (create_sequences (Some 0) 5 feature_columns "points"
                        (world_of example_table))))))
     = Z.max 0 (6 - 5).
Proof.
  split; [reflexivity|].
  exact (proj1 (proj2 (windows_per_player (world_of example_table) 0 5
                         feature_columns "points" 7%Z eq_refl))).
Defined.

Lemma target_follows_window_witness :
  let w := world_of example_table in
  let run := create_sequences (Some 0) 2 feature_columns "points" w in
  builder_ready (deref w 0) feature_columns "points" = true
  /\ nth_error (history_since w (snd run)) 2 = Some (7%Z, 1)
  /\ exists X Y window next,
       fst run = Returns (Some X, Some Y)
       /\ nth_error X 2 = Some window
       /\ nth_error Y 2 = Some (next "points")
       /\ nth_error (group (deref w 0) 7) (1 + 2) = Some next
       /\ length window = 2
       /\ (forall j, j < 2 ->
           exists row, nth_error (group (deref w 0) 7) (1 + j) = Some row
                       /\ nth_error window j = Some (map row feature_columns))
       /\ window
          = map (fun row : Row => map row feature_columns)
                (firstn 2 (skipn 1 (group (deref w 0) 7))).
Proof.
  intros w run. split; [reflexivity|]. split; [reflexivity|].
  exact (proj2 (proj2 (proj2
           (target_follows_window w 0 2 feature_columns "points" 2 7%Z 1
              eq_refl eq_refl)))).
Defined.

Lemma latest_window_prediction_witness :
  1 <= 3
  /\ extractor_ready example_table feature_columns = true
  /\ exists predictions,
       fst (predict_next_gameweek (fun m : Matrix => m) 0 3 feature_columns
              (world_of example_table)) = Returns predictions
       /\ dict_get predictions 7
          = Some [[90; 1; 1]; [90; 0; 0]; [60; 0; 1]]%Z.
Proof.
  split; [lia|]. split; [reflexivity|].
  destruct (latest_window_prediction (fun m : Matrix => m)
              (world_of example_table) 0 3 feature_columns 7%Z
              ltac:(lia) eq_refl)
    as (predictions & Hrun & _ & _ & Hget & _).
  exists predictions. split; [exact Hrun|].
  exact (proj1 (Hget ltac:(vm_compute; lia))).
Defined.

Lemma window_shape_witness :
  let window := [[90; 1; 0]; [45; 0; 0]; [0; 0; 0]; [90; 1; 1]; [90; 0; 0]]%Z in
  fst (create_sequences (Some 0) 5 feature_columns "points"
         (world_of example_table))
  = Returns (Some [window], Some [7%Z])
  /\ In window [window]
  /\ length window = 5
  /\ Forall (fun t : Tuple => length t = length feature_columns) window.
Proof.
  intros window. split; [reflexivity|]. split; [now left|].
  exact (window_shape (world_of example_table) 0 5 feature_columns "points"
           [window] [7%Z] window eq_refl (or_introl eq_refl)).
Defined.

Lemma missing_column_fails_witness :
  let w := world_of long_table_no_minutes in
  let run := create_sequences (Some 0) 5 feature_columns "points" w in
  has_column (deref w 0) "gameweek" = true
  /\ has_column (deref w 0) "player_id" = true
  /\ 5 < row_count (deref w 0) 7
  /\ forallb (has_column (deref w 0)) feature_columns = false
  /\ fst run = Raises (KeyError ["minutes"])
  /\ exists labels,
       fst run = Raises (KeyError labels)
       /\ labels <> []
       /\ (forall c, In c labels <->
                      In c feature_columns /\ has_column (deref w 0) c = false)
       /\ history_since w (snd run) = [].
Proof.
  intros w run.
  assert (Hp : 5 < row_count (deref w 0) 7) by (vm_compute; lia).
  split; [reflexivity|]. split; [reflexivity|]. split; [exact Hp|].
  split; [reflexivity|]. split; [reflexivity|].
  exact (proj1 (proj1 (proj2 (proj2
           (missing_column_fails w 0 5 feature_columns "points")))
           7%Z eq_refl eq_refl Hp) eq_refl).
Defined.

Lemma player_then_position_order_witness :
  let w := world_of example_table in
  builder_ready example_table feature_columns "points" = true
  /\ history_since w
       (snd (create_sequences (Some 0) 2 feature_columns "points" w))
     = [(3%Z, 0); (7%Z, 0); (7%Z, 1); (7%Z, 2); (7%Z, 3)].
Proof.
  intros w. split; [reflexivity|].
  exact (proj1 (proj2 (player_then_position_order w 0 2 feature_columns "points"
                         eq_refl))).
Defined.

Lemma gameweek_synthesized_witness :
  let file := frame_of ["minutes"; "goals"] [[90; 1]; [45; 0]]%Z in
  0 < length (objects (world_of file))
  /\ has_column file "gameweek" = false
  /\ has_column file "index" = false
  /\ exists saved w',
       tag_player_file 0 7 (world_of file) = (Returns saved, w')
       /\ map (fun row : Row => row "gameweek") (rows (deref w' saved))
          = [1; 2]%Z.
Proof.
  intros file. split; [simpl; lia|]. split; [reflexivity|].
  split; [reflexivity|].
  destruct (gameweek_synthesized 0 7 (world_of file)
              ltac:(simpl; lia) eq_refl eq_refl)
    as (saved & w' & Hrun & _ & Hgw & _).
  exists saved, w'. split; [exact Hrun | exact Hgw].
Defined.

Lemma normalization_keeps_targets_witness :
  let w := world_of example_table in
  let scaled := features feature_columns (rows example_table) in
  0 < length (objects w)
  /\ forallb (has_column (after_renames (deref w 0))) required_cols = true
  /\ identity_scaler (features feature_columns (rows (after_renames (deref w 0))))
     = Returns scaled
  /\ has_shape scaled (length (rows (after_renames (deref w 0)))) 3 = true
  /\ exists df X y w',
       process_data identity_scaler (Some 0) w
       = (Returns (mkPdata (Some df) (Some X) (Some y)), w')
       /\ y = [7%Z].
Proof.
  intros w scaled. split; [simpl; lia|]. split; [reflexivity|].
  split; [reflexivity|]. split; [reflexivity|].
  destruct (normalization_keeps_targets identity_scaler 0 w scaled
              ltac:(simpl; lia) eq_refl eq_refl eq_refl)
    as (df & X & y & w' & Hrun & _ & _ & _ & Hy).
  exists df, X, y, w'. split; [exact Hrun | exact Hy].
Defined.

(** ** The builder and the extractor on a six-gameweek player *)

Example one_window_of_five :
  fst (create_sequences (Some 0) 5 ["minutes"] "points"
         (world_of (frame_of ["player_id"; "gameweek"; "minutes"; "points"]
                      [[7; 1; 90; 6]; [7; 2; 45; 2]; [7; 3; 0; 0];
                       [7; 4; 90; 9]; [7; 5; 90; 5]; [7; 6; 60; 7]]%Z)))
  = Returns (Some [[[90]; [45]; [0]; [90]; [90]]]%Z, Some [7%Z]).
Proof. reflexivity. Qed.

Example no_window_of_six :
  fst (create_sequences (Some 0) 6 ["minutes"] "points"
         (world_of (frame_of ["player_id"; "gameweek"; "minutes"; "points"]
                      [[7; 1; 90; 6]; [7; 2; 45; 2]; [7; 3; 0; 0];
                       [7; 4; 90; 9]; [7; 5; 90; 5]; [7; 6; 60; 7]]%Z)))
  = Returns (Some [], Some []).
Proof. reflexivity. Qed.

Example latest_window_of_three :
  fst (predict_next_gameweek (fun seq : Matrix => seq) 0 3 ["minutes"]
         (world_of (frame_of ["player_id"; "gameweek"; "minutes"; "points"]
                      [[7; 1; 90; 6]; [7; 2; 45; 2]; [7; 3; 0; 0];
                       [7; 4; 90; 9]; [7; 5; 90; 5]; [7; 6; 60; 7]]%Z)))
  = Returns [(7%Z, [[90]; [90]; [60]]%Z)].
Proof. reflexivity. Qed.
